(** * The conversation-memory journal of the UWEPD agent clients

    Shallow embedding of the file-backed conversation memory found in
    [src/client_python.py], [src/client_v2.py] and
    [src/streamlit_mcpclientapp.py]: the JSON text codec the journal goes
    through ([json.dump(..., ensure_ascii=False, indent=2)] and
    [json.load]), a file system on a disk with a bounded number of free blocks, the
    journal helpers [_load_memory], [_append_memory], the thread stamping
    done in [main], [delete_thread], [get_all_threads], and one chat turn of
    the terminal client and of the Streamlit page. *)

From Stdlib Require Import Ascii String List Bool Arith NArith Lia Sorted Permutation.
Import ListNotations.

Set Warnings "-register-all".

Local Open Scope string_scope.
Local Open Scope nat_scope.

(* ------------------------------------------------------------------ *)
(** ** JSON values *)

(** The values [json.load] produces.  A number is kept as the lexeme it was
    read from: Python turns it into an [int] or a [float] and prints it
    back in canonical form, which denotes the same number. *)
Inductive json : Type :=
| JNull
| JBool (b : bool)
| JNum (lexeme : string)
| JStr (s : string)
| JArr (items : list json)
| JObj (fields : list (string * json)).

(** Python dict assignment [d[k] = v] on an insertion-ordered dict: an
    existing key keeps its position and gets the new value, a new key goes
    at the end. *)
Fixpoint dict_set {K V : Type} (eqk : K -> K -> bool) (k : K) (v : V)
    (d : list (K * V)) : list (K * V) :=
  match d with
  | [] => [(k, v)]
  | (k', v') :: d' =>
      if eqk k' k then (k', v) :: d' else (k', v') :: dict_set eqk k v d'
  end.

(** [d.get(k)] / [k in d]. *)
Fixpoint dict_get {K V : Type} (eqk : K -> K -> bool) (k : K)
    (d : list (K * V)) : option V :=
  match d with
  | [] => None
  | (k', v') :: d' => if eqk k' k then Some v' else dict_get eqk k d'
  end.

Definition sset := @dict_set string json String.eqb.
Definition sget := @dict_get string json String.eqb.

(* ------------------------------------------------------------------ *)
(** ** Characters *)

Definition dq : ascii := ascii_of_nat 34.   (* the double quote *)
Definition bs : ascii := ascii_of_nat 92.   (* the backslash *)
Definition nl : ascii := ascii_of_nat 10.

Definition ceq (c : ascii) (n : nat) : bool := Nat.eqb (nat_of_ascii c) n.

Definition is_digit (c : ascii) : bool :=
  (48 <=? nat_of_ascii c) && (nat_of_ascii c <=? 57).

(** JSON whitespace, the [WHITESPACE = r'[ \t\n\r]*'] of [json.decoder]. *)
Definition is_ws (c : ascii) : bool :=
  ceq c 32 || ceq c 9 || ceq c 10 || ceq c 13.

(* ------------------------------------------------------------------ *)
(** ** The encoder: [json.dump(obj, f, ensure_ascii=False, indent=2)] *)

Definition hexdigit (n : nat) : ascii :=
  if n <? 10 then ascii_of_nat (48 + n) else ascii_of_nat (87 + n).

(** [py_encode_basestring]: the double quote, the backslash and the
    control characters [\n \r \t \b \f] get their two-character escapes
    from [ESCAPE_DCT]; the other control characters (below 0x20) become
    [\u00XX] with lower-case hex digits; every other byte is copied. *)
Definition escape_char (c : ascii) : string :=
  if ceq c 34 then String bs (String dq EmptyString)
  else if ceq c 92 then String bs (String bs EmptyString)
  else if ceq c 10 then String bs "n"
  else if ceq c 13 then String bs "r"
  else if ceq c 9 then String bs "t"
  else if ceq c 8 then String bs "b"
  else if ceq c 12 then String bs "f"
  else if nat_of_ascii c <? 32 then
    String bs (String "u" (String "0" (String "0"
      (String (hexdigit (nat_of_ascii c / 16))
        (String (hexdigit (nat_of_ascii c mod 16)) EmptyString)))))
  else String c EmptyString.

Fixpoint escape (s : string) : string :=
  match s with
  | EmptyString => EmptyString
  | String c r => escape_char c ++ escape r
  end.

Definition encode_str (s : string) : string :=
  String dq (escape s ++ String dq EmptyString).

Fixpoint spaces (n : nat) : string :=
  match n with 0 => EmptyString | S k => String " " (spaces k) end.

(** ['\n' + ' ' * (indent * level)] with [indent = 2]. *)
Definition newline_indent (level : nat) : string :=
  String nl (spaces (2 * level)).

Definition concat_str (l : list string) : string :=
  fold_right String.append EmptyString l.

(** [_iterencode] of [json.encoder] with [indent=2]: item separator [","],
    key separator [": "], empty containers as [[]] and [{}]. *)
Fixpoint iterencode (level : nat) (v : json) : string :=
  match v with
  | JNull => "null"
  | JBool true => "true"
  | JBool false => "false"
  | JNum lex => lex
  | JStr s => encode_str s
  | JArr [] => "[]"
  | JArr (x :: xs) =>
      "[" ++ newline_indent (S level) ++ iterencode (S level) x ++
      concat_str (map (fun y => "," ++ newline_indent (S level) ++
                                iterencode (S level) y) xs) ++
      newline_indent level ++ "]"
  | JObj [] => "{}"
  | JObj ((k, x) :: kvs) =>
      "{" ++ newline_indent (S level) ++ encode_str k ++ ": " ++
      iterencode (S level) x ++
      concat_str (map (fun kv => "," ++ newline_indent (S level) ++
                                 encode_str (fst kv) ++ ": " ++
                                 iterencode (S level) (snd kv)) kvs) ++
      newline_indent level ++ "}"
  end.

(** The text [json.dump] writes: the chunks of [_iterencode(o, 0)]. *)
Definition dumps (v : json) : string := iterencode 0 v.

(** A value [_make_iterencode] writes in one piece after the separator
    before it: strings, [None], booleans and numbers. *)
Definition scalar_text (v : json) : option string :=
  match v with
  | JNull => Some "null"
  | JBool true => Some "true"
  | JBool false => Some "false"
  | JNum lex => Some lex
  | JStr s => Some (encode_str s)
  | JArr _ | JObj _ => None
  end.

(** The chunks [_iterencode(o, level)] yields: [_iterencode_list] yields
    the separator together with a scalar item, and alone before a nested
    container; [_iterencode_dict] yields separator, key, [": "] and value
    as chunks of their own. *)
Fixpoint iterchunks (level : nat) (v : json) : list string :=
  match v with
  | JArr [] => ["[]"]
  | JArr (x :: xs) =>
      (match scalar_text x with
       | Some t => ["[" ++ newline_indent (S level) ++ t]
       | None => ("[" ++ newline_indent (S level)) :: iterchunks (S level) x
       end) ++
      concat (map (fun y =>
        match scalar_text y with
        | Some t => ["," ++ newline_indent (S level) ++ t]
        | None => ("," ++ newline_indent (S level)) :: iterchunks (S level) y
        end) xs) ++
      [newline_indent level; "]"]
  | JObj [] => ["{}"]
  | JObj ((k, x) :: kvs) =>
      "{" :: newline_indent (S level) :: encode_str k :: ": " ::
      (match scalar_text x with Some t => [t] | None => iterchunks (S level) x end) ++
      concat (map (fun kv =>
        ("," ++ newline_indent (S level)) :: encode_str (fst kv) :: ": " ::
        match scalar_text (snd kv) with
        | Some t => [t]
        | None => iterchunks (S level) (snd kv)
        end) kvs) ++
      [newline_indent level; "}"]
  | _ => match scalar_text v with Some t => [t] | None => [] end
  end.

(* ------------------------------------------------------------------ *)
(** ** The decoder: [json.load(f)], i.e. [json.loads(f.read())] with the C
    scanner of [_json] (strict mode, no hooks) *)

Fixpoint skip_ws (s : string) : string :=
  match s with
  | String c r => if is_ws c then skip_ws r else s
  | EmptyString => EmptyString
  end.

Fixpoint strip_prefix (p s : string) : option string :=
  match p, s with
  | EmptyString, _ => Some s
  | String a p', String b s' => if Ascii.eqb a b then strip_prefix p' s' else None
  | String _ _, EmptyString => None
  end.

Fixpoint span_digits (s : string) : string * string :=
  match s with
  | String c r =>
      if is_digit c then let (ds, r') := span_digits r in (String c ds, r')
      else (EmptyString, s)
  | EmptyString => (EmptyString, EmptyString)
  end.

Definition hexval (c : ascii) : option N :=
  let n := N_of_ascii c in
  if (48 <=? n)%N && (n <=? 57)%N then Some (n - 48)%N
  else if (97 <=? n)%N && (n <=? 102)%N then Some (n - 87)%N
  else if (65 <=? n)%N && (n <=? 70)%N then Some (n - 55)%N
  else None.

Definition hex4 (a b c d : ascii) : option N :=
  match hexval a, hexval b, hexval c, hexval d with
  | Some w, Some x, Some y, Some z => Some (((w * 16 + x) * 16 + y) * 16 + z)%N
  | _, _, _, _ => None
  end.

(** The UTF-8 bytes of a code point; a lone surrogate is written with the
    three-byte pattern (Python keeps it in the [str]). *)
Definition utf8_encode (n : N) : string :=
  if (n <? 128)%N then String (ascii_of_N n) EmptyString
  else if (n <? 2048)%N then
    String (ascii_of_N (192 + n / 64))
      (String (ascii_of_N (128 + n mod 64)) EmptyString)
  else if (n <? 65536)%N then
    String (ascii_of_N (224 + n / 4096))
      (String (ascii_of_N (128 + (n / 64) mod 64))
        (String (ascii_of_N (128 + n mod 64)) EmptyString))
  else
    String (ascii_of_N (240 + n / 262144))
      (String (ascii_of_N (128 + (n / 4096) mod 64))
        (String (ascii_of_N (128 + (n / 64) mod 64))
          (String (ascii_of_N (128 + n mod 64)) EmptyString))).

(** The one-character escapes: quote, backslash, slash, b, f, n, r, t. *)
Definition simple_escape (e : ascii) : option ascii :=
  if ceq e 34 then Some dq
  else if ceq e 92 then Some bs
  else if ceq e 47 then Some e
  else if Ascii.eqb e "b" then Some (ascii_of_nat 8)
  else if Ascii.eqb e "f" then Some (ascii_of_nat 12)
  else if Ascii.eqb e "n" then Some (ascii_of_nat 10)
  else if Ascii.eqb e "r" then Some (ascii_of_nat 13)
  else if Ascii.eqb e "t" then Some (ascii_of_nat 9)
  else None.

Definition prepend (p : string) (o : option (string * string))
    : option (string * string) :=
  match o with Some (d, rest) => Some (p ++ d, rest) | None => None end.

Definition is_high_surrogate (n : N) : bool := (55296 <=? n)%N && (n <=? 56319)%N.
Definition is_low_surrogate (n : N) : bool := (56320 <=? n)%N && (n <=? 57343)%N.

(** [scanstring_unicode] after the opening quote: the decoded text and the
    input after the closing quote.  Control characters are refused (strict
    mode); a high surrogate escape followed by a low one is joined. *)
Fixpoint scan_str (s : string) : option (string * string) :=
  match s with
  | EmptyString => None
  | String c r =>
    if ceq c 34 then Some (EmptyString, r)
    else if ceq c 92 then
      match r with
      | EmptyString => None
      | String e r1 =>
        if Ascii.eqb e "u" then
          match r1 with
          | String h1 (String h2 (String h3 (String h4 r2))) =>
            match hex4 h1 h2 h3 h4 with
            | None => None
            | Some n =>
              if is_high_surrogate n then
                match r2 with
                | String b1 (String b2 (String k1 (String k2 (String k3 (String k4 r3))))) =>
                  if ceq b1 92 && Ascii.eqb b2 "u" then
                    match hex4 k1 k2 k3 k4 with
                    | None => None
                    | Some m =>
                      if is_low_surrogate m then
                        prepend (utf8_encode (65536 + (n - 55296) * 1024 + (m - 56320))%N)
                                (scan_str r3)
                      else prepend (utf8_encode n) (scan_str r2)
                    end
                  else prepend (utf8_encode n) (scan_str r2)
                | _ => prepend (utf8_encode n) (scan_str r2)
                end
              else prepend (utf8_encode n) (scan_str r2)
            end
          | _ => None
          end
        else
          match simple_escape e with
          | Some d => prepend (String d EmptyString) (scan_str r1)
          | None => None
          end
      end
    else if nat_of_ascii c <? 32 then None
    else prepend (String c EmptyString) (scan_str r)
  end.

(** [NUMBER_RE] of [json.scanner]: an optional minus, then [0] or a
    non-zero digit followed by digits, then optionally a dot and at least
    one digit, then optionally [e] or [E], an optional sign and at least one
    digit; matched from the start, an optional group whose digits are
    missing is not taken. *)
Definition scan_int (s : string) : option (string * string) :=
  match s with
  | String c r =>
      if Ascii.eqb c "0" then Some ("0", r)
      else if is_digit c then let (ds, r') := span_digits r in Some (String c ds, r')
      else None
  | EmptyString => None
  end.

Definition scan_frac (s : string) : string * string :=
  match s with
  | String c r =>
      if Ascii.eqb c "." then
        match span_digits r with
        | (EmptyString, _) => (EmptyString, s)
        | (ds, r') => (String c ds, r')
        end
      else (EmptyString, s)
  | EmptyString => (EmptyString, EmptyString)
  end.

Definition scan_sign (s : string) : string * string :=
  match s with
  | String d r' =>
      if Ascii.eqb d "+" || Ascii.eqb d "-" then (String d EmptyString, r')
      else (EmptyString, s)
  | EmptyString => (EmptyString, EmptyString)
  end.

Definition scan_exp (s : string) : string * string :=
  match s with
  | String c r =>
      if Ascii.eqb c "e" || Ascii.eqb c "E" then
        let (sg, r1) := scan_sign r in
        match span_digits r1 with
        | (EmptyString, _) => (EmptyString, s)
        | (ds, r2) => (String c (sg ++ ds), r2)
        end
      else (EmptyString, s)
  | EmptyString => (EmptyString, EmptyString)
  end.

Definition scan_minus (s : string) : string * string :=
  match s with
  | String c r => if Ascii.eqb c "-" then ("-", r) else (EmptyString, s)
  | EmptyString => (EmptyString, EmptyString)
  end.

Definition scan_number (s : string) : option (string * string) :=
  let (sign, s1) := scan_minus s in
  match scan_int s1 with
  | None => None
  | Some (i, s2) =>
      let (f, s3) := scan_frac s2 in
      let (e, s4) := scan_exp s3 in
      Some (sign ++ i ++ f ++ e, s4)
  end.

(** [scan_once] of the C scanner, with the members loop of
    [_parse_object_unicode] and the items loop of [_parse_array_unicode].
    Every nested call spends one unit of [fuel]; [loads] gives one more
    unit than the input has characters, which is always enough. *)
Fixpoint parse_value (fuel : nat) (s : string) {struct fuel}
    : option (json * string) :=
  match fuel with
  | 0 => None
  | S f =>
    match s with
    | EmptyString => None
    | String c r =>
      if ceq c 34 then
        match scan_str r with Some (d, rest) => Some (JStr d, rest) | None => None end
      else if Ascii.eqb c "{" then
        match skip_ws r with
        | String c' r' =>
            if Ascii.eqb c' "}" then Some (JObj [], r')
            else match parse_members f [] (skip_ws r) with
                 | Some (kvs, rest) => Some (JObj kvs, rest)
                 | None => None
                 end
        | EmptyString => None
        end
      else if Ascii.eqb c "[" then
        match skip_ws r with
        | String c' r' =>
            if Ascii.eqb c' "]" then Some (JArr [], r')
            else match parse_elems f (skip_ws r) with
                 | Some (vs, rest) => Some (JArr vs, rest)
                 | None => None
                 end
        | EmptyString => None
        end
      else
        match strip_prefix "null" s with
        | Some rest => Some (JNull, rest)
        | None =>
        match strip_prefix "true" s with
        | Some rest => Some (JBool true, rest)
        | None =>
        match strip_prefix "false" s with
        | Some rest => Some (JBool false, rest)
        | None =>
        match scan_number s with
        | Some (lex, rest) => Some (JNum lex, rest)
        | None =>
        match strip_prefix "NaN" s with
        | Some rest => Some (JNum "NaN", rest)
        | None =>
        match strip_prefix "Infinity" s with
        | Some rest => Some (JNum "Infinity", rest)
        | None =>
        match strip_prefix "-Infinity" s with
        | Some rest => Some (JNum "-Infinity", rest)
        | None => None
        end end end end end end end
    end
  end
with parse_elems (fuel : nat) (s : string) {struct fuel}
    : option (list json * string) :=
  match fuel with
  | 0 => None
  | S f =>
    match parse_value f s with
    | None => None
    | Some (v, r) =>
      match skip_ws r with
      | String c r' =>
          if Ascii.eqb c "]" then Some ([v], r')
          else if Ascii.eqb c "," then
            match parse_elems f (skip_ws r') with
            | Some (vs, r'') => Some (v :: vs, r'')
            | None => None
            end
          else None
      | EmptyString => None
      end
    end
  end
with parse_members (fuel : nat) (acc : list (string * json)) (s : string)
    {struct fuel} : option (list (string * json) * string) :=
  match fuel with
  | 0 => None
  | S f =>
    match s with
    | String c r =>
      if ceq c 34 then
        match scan_str r with
        | None => None
        | Some (k, r1) =>
          match skip_ws r1 with
          | String c1 r2 =>
            if Ascii.eqb c1 ":" then
              match parse_value f (skip_ws r2) with
              | None => None
              | Some (v, r3) =>
                match skip_ws r3 with
                | String c2 r4 =>
                    if Ascii.eqb c2 "}" then Some (sset k v acc, r4)
                    else if Ascii.eqb c2 "," then
                      parse_members f (sset k v acc) (skip_ws r4)
                    else None
                | EmptyString => None
                end
              end
            else None
          | EmptyString => None
          end
        end
      else None
    | EmptyString => None
    end
  end.

(** [json.loads]: one value between optional whitespace, nothing after it
    ("Extra data" otherwise).  [None] is the [JSONDecodeError]. *)
Definition loads (s : string) : option json :=
  match parse_value (S (String.length s)) (skip_ws s) with
  | Some (v, rest) =>
      match skip_ws rest with EmptyString => Some v | String _ _ => None end
  | None => None
  end.


(* ------------------------------------------------------------------ *)
(** ** Python values read from a journal *)

(** [bool(v)] for the values [json.load] produces.  A number is false
    when every digit of its mantissa is [0]; [NaN] and the infinities are
    true. *)
Fixpoint mantissa_zero (s : string) : bool :=
  match s with
  | EmptyString => true
  | String c r =>
      if Ascii.eqb c "e" || Ascii.eqb c "E" then true
      else if Ascii.eqb c "0" || Ascii.eqb c "." || Ascii.eqb c "-" then mantissa_zero r
      else false
  end.

Definition truthy (v : json) : bool :=
  match v with
  | JNull => false
  | JBool b => b
  | JNum lex => negb (mantissa_zero lex)
  | JStr s => negb (String.eqb s EmptyString)
  | JArr l => match l with [] => false | _ => true end
  | JObj kvs => match kvs with [] => false | _ => true end
  end.

(** The exceptions the journal code can raise. *)
Inductive exc : Type :=
| AttributeError
| TypeError
| KeyError
| JSONDecodeError
| FileNotFoundError
| NoSpaceError         (* [OSError(ENOSPC)] on a full disk *)
| UnicodeDecodeError   (* reading bytes that are not UTF-8 *)
| UnicodeEncodeError.  (* writing a [str] holding a lone surrogate *)

Inductive res (A : Type) : Type :=
| Ok (a : A)
| Err (e : exc).
Arguments Ok {A} a.
Arguments Err {A} e.

(** [d.get(k)]: a missing key gives [None]; not a dict: [AttributeError]. *)
Definition py_get (d : json) (k : string) : res json :=
  match d with
  | JObj kvs => Ok (match sget k kvs with Some v => v | None => JNull end)
  | _ => Err AttributeError
  end.

(** [d[k]] for a string key. *)
Definition py_getitem (d : json) (k : string) : res json :=
  match d with
  | JObj kvs => match sget k kvs with Some v => Ok v | None => Err KeyError end
  | _ => Err TypeError
  end.

(** [d[k] = v] for a string key: only a dict supports it. *)
Definition py_setitem (d : json) (k : string) (v : json) : res json :=
  match d with
  | JObj kvs => Ok (JObj (sset k v kvs))
  | _ => Err TypeError
  end.

(** [for x in v]: a list gives its items, a dict its keys, a string its
    characters (the model's characters are bytes); other values are not
    iterable. *)
Fixpoint str_chars (s : string) : list json :=
  match s with
  | EmptyString => []
  | String c r => JStr (String c EmptyString) :: str_chars r
  end.

Definition py_iter (v : json) : res (list json) :=
  match v with
  | JArr l => Ok l
  | JObj kvs => Ok (map (fun kv => JStr (fst kv)) kvs)
  | JStr s => Ok (str_chars s)
  | _ => Err TypeError
  end.

(** Key equality in the [threads] dict of [get_all_threads]: strings by
    content; numbers are compared by lexeme. *)
Definition key_eqb (a b : json) : bool :=
  match a, b with
  | JStr x, JStr y => String.eqb x y
  | JNum x, JNum y => String.eqb x y
  | JBool x, JBool y => Bool.eqb x y
  | JNull, JNull => true
  | _, _ => false
  end.

(** [threads[k] = v]: lists and dicts are unhashable. *)
Definition hash_set (k v : json) (d : list (json * json)) : res (list (json * json)) :=
  match k with
  | JArr _ | JObj _ => Err TypeError
  | _ => Ok (dict_set key_eqb k v d)
  end.

(* ------------------------------------------------------------------ *)
(** ** The file system and the program monad *)

(** The [memory] directory: whether it exists, its files (name and
    content, in directory order) and the number of free blocks of the disk. *)
Record FS : Type := mkFS {
  mem_dir : bool;
  files : list (string * string);
  free : nat
}.

Definition M (A : Type) : Type := FS -> res A * FS.

Definition ret {A} (a : A) : M A := fun fs => (Ok a, fs).
Definition raise {A} (e : exc) : M A := fun fs => (Err e, fs).
Definition bind {A B} (m : M A) (k : A -> M B) : M B :=
  fun fs => match m fs with
            | (Ok a, fs') => k a fs'
            | (Err e, fs') => (Err e, fs')
            end.
Definition lift {A} (r : res A) : M A :=
  match r with Ok a => ret a | Err e => raise e end.
(** [try: m except Exception: h]. *)
Definition try_except {A} (m : M A) (h : exc -> M A) : M A :=
  fun fs => match m fs with
            | (Err e, fs') => h e fs'
            | r => r
            end.

Notation "x <- m ;; k" := (bind m (fun x => k))
  (at level 61, m at next level, right associativity).

Definition file_get (name : string) (l : list (string * string)) : option string :=
  dict_get String.eqb name l.

Definition file_remove (name : string) (l : list (string * string))
    : list (string * string) :=
  filter (fun nc => negb (String.eqb (fst nc) name)) l.

(** [Path("memory").mkdir(parents=True, exist_ok=True)]. *)
Definition mkdir_memory : M unit :=
  fun fs => (Ok tt, mkFS true (files fs) (free fs)).

(** [mem_path.exists()]. *)
Definition path_exists (name : string) : M bool :=
  fun fs => (Ok (match file_get name (files fs) with Some _ => true | None => false end), fs).

(** Strict UTF-8 (Unicode Table 3-7, the [utf-8] codec of Python): no
    overlong forms, no surrogates [ED A0..BF], nothing above [U+10FFFF]. *)
Definition in_range (lo hi : nat) (c : ascii) : bool :=
  (lo <=? nat_of_ascii c) && (nat_of_ascii c <=? hi).

Fixpoint utf8_valid (s : string) : bool :=
  match s with
  | EmptyString => true
  | String a r =>
    let n := nat_of_ascii a in
    if n <? 128 then utf8_valid r
    else if in_range 194 223 a then
      match r with
      | String b r' => in_range 128 191 b && utf8_valid r'
      | EmptyString => false
      end
    else if in_range 224 239 a then
      match r with
      | String b (String c r') =>
          in_range (if n =? 224 then 160 else 128) (if n =? 237 then 159 else 191) b &&
          in_range 128 191 c && utf8_valid r'
      | _ => false
      end
    else if in_range 240 244 a then
      match r with
      | String b (String c (String d r')) =>
          in_range (if n =? 240 then 144 else 128) (if n =? 244 then 143 else 191) b &&
          in_range 128 191 c && in_range 128 191 d && utf8_valid r'
      | _ => false
      end
    else false
  end.

(** [mem_path.open("r", encoding="utf-8").read()]: the bytes are decoded
    strictly; [json.load] then parses the text.  The scanner only looks at
    ASCII characters outside strings and copies the others, so parsing
    the bytes of a valid file gives the strings of the decoded text (as
    UTF-8 bytes).  Universal newlines turn [\r\n] and [\r] into [\n]: a
    raw [\r] or [\n] is whitespace outside strings and an error inside
    them, so the result of [json.load] does not change. *)
Definition read_file (name : string) : M string :=
  fun fs => match file_get name (files fs) with
            | Some c => if utf8_valid c then (Ok c, fs) else (Err UnicodeDecodeError, fs)
            | None => (Err FileNotFoundError, fs)
            end.

(** The disk hands out blocks of [block_size] bytes; a file of [n] bytes
    occupies [blocks n] of them. *)
Definition block_size : nat := 4096.

Definition blocks (n : nat) : nat := (n + block_size - 1) / block_size.

(** [mem_path.open("w")]: creates or truncates the file at once; the
    blocks of the old content are given back to the disk. *)
Definition open_w (name : string) : M unit :=
  fun fs =>
    if mem_dir fs then
      let old := match file_get name (files fs) with Some c => String.length c | None => 0 end in
      (Ok tt, mkFS true (dict_set String.eqb name EmptyString (files fs)) (free fs + blocks old))
    else (Err FileNotFoundError, fs).

(** Writing [data] at the end of a file opened for writing: when the
    grown file needs more blocks than it has plus the free ones, the
    bytes that fill the available blocks are written and [ENOSPC] is
    raised. *)
Definition write_file (name : string) (data : string) : M unit :=
  fun fs =>
    let cur := match file_get name (files fs) with Some c => c | None => EmptyString end in
    let total := cur ++ data in
    let avail := blocks (String.length cur) + free fs in
    if blocks (String.length total) <=? avail then
      (Ok tt, mkFS (mem_dir fs) (dict_set String.eqb name total (files fs))
                   (avail - blocks (String.length total)))
    else
      (Err NoSpaceError,
       mkFS (mem_dir fs)
            (dict_set String.eqb name (substring 0 (avail * block_size) total) (files fs)) 0).

(** [mem_path.unlink()]. *)
Definition unlink (name : string) : M unit :=
  fun fs => match file_get name (files fs) with
            | Some c => (Ok tt, mkFS (mem_dir fs) (file_remove name (files fs))
                                     (free fs + blocks (String.length c)))
            | None => (Err FileNotFoundError, fs)
            end.

(** The text [f.write] receives for each chunk [_make_iterencode] yields
    (the pure-Python encoder [json.dump] uses): the UTF-8 bytes of the
    chunks before the first one that cannot be encoded, and whether there
    is such a chunk. [TextIOWrapper.write] encodes a non-ASCII chunk when
    it is written, so [UnicodeEncodeError] comes from that chunk, and the
    chunks before it reach the file when [with] closes it. *)
Fixpoint enc_chunks (cs : list string) : string * bool :=
  match cs with
  | [] => (EmptyString, false)
  | c :: rest =>
      if utf8_valid c then let (p, bad) := enc_chunks rest in (c ++ p, bad)
      else (EmptyString, true)
  end.

(** [with mem_path.open("w", encoding="utf-8") as f:
        json.dump(data, f, ensure_ascii=False, indent=2)]. *)
Definition dump_to (name : string) (data : json) : M unit :=
  _ <- open_w name ;;
  match enc_chunks (iterchunks 0 data) with
  | (pre, bad) =>
      _ <- write_file name pre ;;
      if bad then raise UnicodeEncodeError else ret tt
  end.

(* ------------------------------------------------------------------ *)
(** ** The journal helpers (identical in the three scripts, except the
       trimming of the Streamlit page) *)

(** [_memory_path_for_thread]: [memory/conversation_<thread_id>.json];
    the model names a file by its name inside [memory]. *)
Definition _memory_path_for_thread (thread_id : string) : M string :=
  _ <- mkdir_memory ;;
  ret ("conversation_" ++ thread_id ++ ".json").

Definition empty_journal : json :=
  JObj [("thread_id", JNull); ("messages", JArr [])].

(** [_load_memory]. *)
Definition _load_memory (mem_path : string) : M json :=
  ex <- path_exists mem_path ;;
  if ex then
    try_except
      (txt <- read_file mem_path ;;
       match loads txt with Some v => ret v | None => raise JSONDecodeError end)
      (fun _ => ret empty_journal)
  else ret empty_journal.

Definition opt_str (o : option string) : json :=
  match o with Some s => JStr s | None => JNull end.

(** The entry [_append_memory] builds; [ts] is the clock reading of
    [datetime.utcnow().isoformat() + "Z"] (terminal clients) or
    [datetime.now(timezone.utc).isoformat()] (Streamlit page). *)
Definition mk_entry (ts role text : string) (message_id : option string) : json :=
  JObj [("ts", JStr ts); ("role", JStr role); ("text", JStr text);
        ("message_id", opt_str message_id)].

(** [data.setdefault("messages", [])]. *)
Definition setdefault_messages (data : json) : res json :=
  match data with
  | JObj kvs =>
      match sget "messages" kvs with
      | Some _ => Ok data
      | None => Ok (JObj (sset "messages" (JArr []) kvs))
      end
  | _ => Err AttributeError
  end.

(** [data["messages"].append(entry)]: the list held by the dict is
    extended in place. *)
Definition append_message (data : json) (entry : json) : res json :=
  match py_getitem data "messages" with
  | Ok (JArr l) => py_setitem data "messages" (JArr (l ++ [entry]))
  | Ok _ => Err AttributeError
  | Err e => Err e
  end.

(** [l[-n:]]. *)
Definition lastn {A} (n : nat) (l : list A) : list A := skipn (length l - n) l.

(** [data["messages"] = data["messages"][-20:]]. *)
Definition trim_messages (data : json) : res json :=
  match py_getitem data "messages" with
  | Ok (JArr l) => py_setitem data "messages" (JArr (lastn 20 l))
  | Ok _ => Err TypeError
  | Err e => Err e
  end.

(** [_append_memory] of [client_python.py] and [client_v2.py]. *)
Definition _append_memory (mem_path : string) (ts role text : string)
    (message_id : option string) : M unit :=
  data <- _load_memory mem_path ;;
  data <- lift (setdefault_messages data) ;;
  data <- lift (append_message data (mk_entry ts role text message_id)) ;;
  dump_to mem_path data.

(** [_append_memory] of [streamlit_mcpclientapp.py]: keeps the last 20
    entries. *)
Definition _append_memory_st (mem_path : string) (ts role text : string)
    (message_id : option string) : M unit :=
  data <- _load_memory mem_path ;;
  data <- lift (setdefault_messages data) ;;
  data <- lift (append_message data (mk_entry ts role text message_id)) ;;
  data <- lift (trim_messages data) ;;
  dump_to mem_path data.

(** Stamping the journal of a created or resumed thread in [main]
    ([client_python.py] lines 185-189, [client_v2.py] lines 134-138). *)
Definition set_thread_id (thread_id : string) : M unit :=
  mem_path <- _memory_path_for_thread thread_id ;;
  mem_data <- _load_memory mem_path ;;
  mem_data <- lift (py_setitem mem_data "thread_id" (JStr thread_id)) ;;
  dump_to mem_path mem_data.

(** One append call: clock reading, role, text, message id. *)
Record append_call : Type := mkCall {
  a_ts : string; a_role : string; a_text : string; a_id : option string
}.

Definition call_entry (c : append_call) : json :=
  mk_entry (a_ts c) (a_role c) (a_text c) (a_id c).

Fixpoint run_appends (app : string -> string -> string -> string -> option string -> M unit)
    (mem_path : string) (cs : list append_call) : M unit :=
  match cs with
  | [] => ret tt
  | c :: cs' => _ <- app mem_path (a_ts c) (a_role c) (a_text c) (a_id c) ;;
                run_appends app mem_path cs'
  end.

(** The [messages] of a loaded journal, as [data.get("messages", [])]
    reads them. *)
Definition journal_messages (v : json) : option (list json) :=
  match v with
  | JObj kvs => match sget "messages" kvs with
                | Some (JArr l) => Some l
                | None => Some []
                | Some _ => None
                end
  | _ => None
  end.


(* ------------------------------------------------------------------ *)
(** ** The thread directory of the Streamlit page *)

Fixpoint ends_with (suffix s : string) : bool :=
  String.eqb s suffix ||
  match s with EmptyString => false | String _ r => ends_with suffix r end.

(** [glob("conversation_*.json")] on a file name. *)
Definition glob_match (name : string) : bool :=
  String.prefix "conversation_" name && ends_with ".json" name &&
  (18 <=? String.length name).

(** [sorted(..., reverse=True)] on the paths of one directory. *)
Fixpoint insert_desc (x : string) (l : list string) : list string :=
  match l with
  | [] => [x]
  | y :: ys => if String.ltb y x then x :: l else y :: insert_desc x ys
  end.

Definition sort_desc (l : list string) : list string := fold_right insert_desc [] l.

(** [next((msg["text"] for msg in messages if msg["role"] == "user"), "Chat")]. *)
Fixpoint first_user_text (msgs : list json) : res json :=
  match msgs with
  | [] => Ok (JStr "Chat")
  | msg :: rest =>
      match py_getitem msg "role" with
      | Err e => Err e
      | Ok r =>
          match r with
          | JStr "user" => py_getitem msg "text"
          | _ => first_user_text rest
          end
      end
  end.

(** The loop body of [get_all_threads] over the sorted journal files. *)
Fixpoint scan_threads (names : list string) (threads : list (json * json))
    : M (list (json * json)) :=
  match names with
  | [] => ret threads
  | mem_file :: rest =>
      mem_data <- _load_memory mem_file ;;
      thread_id <- lift (py_get mem_data "thread_id") ;;
      if truthy thread_id then
        msgs <- lift (py_get mem_data "messages") ;;
        if truthy msgs then
          items <- lift (py_iter msgs) ;;
          first_user_message <- lift (first_user_text items) ;;
          threads' <- lift (hash_set thread_id first_user_message threads) ;;
          scan_threads rest threads'
        else scan_threads rest threads
      else scan_threads rest threads
  end.

Definition journal_names (fs : FS) : list string :=
  sort_desc (filter glob_match (map fst (files fs))).

(** [get_all_threads]: thread id to label, in insertion order. *)
Definition get_all_threads : M (list (json * json)) :=
  _ <- mkdir_memory ;;
  fun fs => scan_threads (journal_names fs) [] fs.

(* ------------------------------------------------------------------ *)
(** ** The Streamlit session and [delete_thread] *)

Definition placeholder : string := "--- Start a new chat ---".

(** The part of [st.session_state] the journal code touches, and the
    [st.error] messages rendered. *)
Record Session : Type := mkSession {
  s_thread_id : option string;
  s_messages : list (string * string);   (* role, content *)
  s_selected : string;
  s_log : list (string * string);        (* log type, content *)
  s_errors : list string
}.

Definition start_new_chat (s : Session) : Session :=
  mkSession None [] placeholder [] (s_errors s).

Definition opt_eqb (a b : option string) : bool :=
  match a, b with
  | Some x, Some y => String.eqb x y
  | None, None => true
  | _, _ => false
  end.

(** [delete_thread]. *)
Definition delete_thread (s : Session) (thread_id : string) : M Session :=
  mem_path <- _memory_path_for_thread thread_id ;;
  try_except
    (ex <- path_exists mem_path ;;
     _ <- (if ex then unlink mem_path else ret tt) ;;
     ret (if opt_eqb (s_thread_id s) (Some thread_id) then start_new_chat s else s))
    (fun _ => ret (mkSession (s_thread_id s) (s_messages s) (s_selected s) (s_log s)
                             (s_errors s ++ ["Error deleting thread"]))).

(* ------------------------------------------------------------------ *)
(** ** One chat turn against the hosted agent service *)

(** A message of [agents_client.messages.list(..., order=DESCENDING)]. *)
Record remote_msg : Type := mkRMsg {
  m_role : string; m_id : string; m_texts : list string
}.

(** What the service and the clock answer during one turn. *)
Record turn_env : Type := mkEnv {
  e_new_thread : string;        (* [threads.create().id] *)
  e_user_msg_id : string;       (* [messages.create(...).id] *)
  e_run_id : string;
  e_run_status : string;        (* [run.status] *)
  e_run_error : string;         (* [run.last_error] *)
  e_msgs : list remote_msg;     (* newest first, after the run *)
  e_ts_user : string;           (* clock at the user append *)
  e_ts_assistant : string       (* clock at the assistant append *)
}.

Fixpoint last_text (l : list string) : string :=
  match l with [] => EmptyString | [x] => x | _ :: r => last_text r end.

(** [_print_latest_assistant]: the last text segment of the newest
    assistant message that has text, or [""]. *)
Fixpoint latest_assistant (msgs : list remote_msg) : string :=
  match msgs with
  | [] => EmptyString
  | m :: rest =>
      if String.eqb (m_role m) "assistant" && negb (match m_texts m with [] => true | _ => false end)
      then last_text (m_texts m) else latest_assistant rest
  end.

(** The id of the newest assistant message, with or without text. *)
Fixpoint latest_assistant_id (msgs : list remote_msg) : option string :=
  match msgs with
  | [] => None
  | m :: rest => if String.eqb (m_role m) "assistant" then Some (m_id m)
                 else latest_assistant_id rest
  end.

(** One iteration of the [while True] loop of [main] in [client_python.py]
    (lines 207-235) for a non-empty [user_input]; returns what it prints
    about the run. *)
Definition cli_turn (mem_path : string) (env : turn_env) (user_input : string)
    : M (list string) :=
  _ <- _append_memory mem_path (e_ts_user env) "user" user_input (Some (e_user_msg_id env)) ;;
  let printed : list string :=
    app ["Run ID: " ++ e_run_id env; "Run completed with status: " ++ e_run_status env]
        (if String.eqb (e_run_status env) "failed" then ["Run failed: " ++ e_run_error env] else []) in
  let assistant_text := latest_assistant (e_msgs env) in
  if negb (String.eqb assistant_text EmptyString) then
    _ <- _append_memory mem_path (e_ts_assistant env) "assistant" assistant_text
                        (latest_assistant_id (e_msgs env)) ;;
    ret (app printed ["ASSISTANT: " ++ assistant_text])
  else ret (app printed ["ASSISTANT: <no text found>"]).

(** The [if prompt := st.chat_input(...)] block of
    [streamlit_mcpclientapp.py] (lines 198-262), up to [st.rerun()];
    the agent creation and deletion only add log lines. *)
Definition st_turn (s : Session) (env : turn_env) (prompt : string) : M Session :=
  let s1 := mkSession (s_thread_id s) (s_messages s ++ [("user", prompt)])
                      (s_selected s) [] (s_errors s) in
  let s2 := match s_thread_id s1 with
            | Some _ => s1
            | None => mkSession (Some (e_new_thread env)) (s_messages s1) (s_selected s1)
                        (s_log s1 ++ [("info", "Creating a new thread...");
                                      ("success", "New thread: " ++ e_new_thread env)])
                        (s_errors s1)
            end in
  let thread_id := match s_thread_id s2 with Some t => t | None => EmptyString end in
  mem_path <- _memory_path_for_thread thread_id ;;
  _ <- _append_memory_st mem_path (e_ts_user env) "user" prompt (Some (e_user_msg_id env)) ;;
  let log2 : list (string * string) := app (s_log s2) [("info", "Creating agent..."); ("success", "Agent created");
                           ("info", "Sending message..."); ("success", "Message sent.");
                           ("info", "Starting run...")] in
  if String.eqb (e_run_status env) "failed" then
    ret (mkSession (s_thread_id s2) (s_messages s2) (s_selected s2)
           (log2 ++ [("error", "Run " ++ e_run_id env ++ " failed.");
                     ("info", "Deleting agent"); ("success", "Agent deleted.")])
           (s_errors s2 ++ ["Run failed: " ++ e_run_error env]))
  else
    let assistant_text := latest_assistant (e_msgs env) in
    _ <- _append_memory_st mem_path (e_ts_assistant env) "assistant" assistant_text
                           (latest_assistant_id (e_msgs env)) ;;
    ret (mkSession (s_thread_id s2) (s_messages s2 ++ [("assistant", assistant_text)])
           (s_selected s2)
           (log2 ++ [("success", "Run " ++ e_run_id env ++ ": " ++ e_run_status env);
                     ("subheader", "Run Steps & Tool Calls");
                     ("info", "...Retrieving assistant's response.");
                     ("info", "Deleting agent"); ("success", "Agent deleted.")])
           (s_errors s2)).

(* ------------------------------------------------------------------ *)
(** ** Reading the journal back, and sequences of read-only calls *)

(** [_load_memory] as a pure function of the disk. *)
Definition load_value (fs : FS) (mem_path : string) : res json :=
  fst (_load_memory mem_path fs).

Definition thread_path (thread_id : string) : string :=
  "conversation_" ++ thread_id ++ ".json".

Inductive read_call : Type :=
| RLoad (mem_path : string)
| RList.

Fixpoint run_reads (cs : list read_call) : M unit :=
  match cs with
  | [] => ret tt
  | RLoad p :: cs' => _ <- _load_memory p ;; run_reads cs'
  | RList :: cs' => _ <- get_all_threads ;; run_reads cs'
  end.

(** A computation that leaves the disk exactly as it found it. *)
Definition keeps_state {A} (m : M A) : Prop := forall fs, snd (m fs) = fs.

(* ------------------------------------------------------------------ *)
(** ** The journal format of the spec (section 6)

    A UTF-8 JSON object with [thread_id] (string or null) and [messages]
    (array of [{ts, role, text, message_id}] objects, role [user] or
    [assistant], message id string or null). *)

Definition str_or_null (v : option json) : bool :=
  match v with Some JNull | Some (JStr _) => true | _ => false end.

Definition is_str (v : option json) : bool :=
  match v with Some (JStr _) => true | _ => false end.

Definition entry_ok (m : json) : bool :=
  match m with
  | JObj kvs =>
      is_str (sget "ts" kvs) && is_str (sget "text" kvs) &&
      str_or_null (sget "message_id" kvs) &&
      match sget "role" kvs with
      | Some (JStr r) => String.eqb r "user" || String.eqb r "assistant"
      | _ => false
      end
  | _ => false
  end.

Definition journal_ok (v : json) : bool :=
  match v with
  | JObj kvs =>
      str_or_null (sget "thread_id" kvs) &&
      match sget "messages" kvs with
      | Some (JArr l) => forallb entry_ok l
      | _ => false
      end
  | _ => false
  end.

Definition entry_role (m : json) : option json :=
  match m with JObj kvs => sget "role" kvs | _ => None end.

(** The label of the spec: the text of the first [user] entry, or the
    placeholder [Chat]. *)
Definition label_of (msgs : list json) : json :=
  match find (fun m => match entry_role m with Some (JStr r) => String.eqb r "user" | _ => false end) msgs with
  | Some (JObj kvs) => match sget "text" kvs with Some t => t | None => JNull end
  | _ => JStr "Chat"
  end.

(** The journals the listing keeps, in scan order: a non-empty thread id
    and a non-empty message list. *)
Definition listed (v : json) : list (string * json) :=
  match v with
  | JObj kvs =>
      match sget "thread_id" kvs, sget "messages" kvs with
      | Some (JStr t), Some (JArr (m :: ms)) =>
          if String.eqb t EmptyString then [] else [(t, label_of (m :: ms))]
      | _, _ => []
      end
  | _ => []
  end.

Definition listed_of (fs : FS) : list (string * json) :=
  flat_map (fun name => match load_value fs name with Ok v => listed v | Err _ => [] end)
           (journal_names fs).

(** [threads[thread_id] = label] for each listed journal in turn. *)
Definition scan_step (d : list (json * json)) (tl : string * json) : list (json * json) :=
  dict_set key_eqb (JStr (fst tl)) (snd tl) d.

Definition threads_of (entries : list (string * json)) : list (json * json) :=
  fold_left scan_step entries [].

(* ------------------------------------------------------------------ *)
(** ** Well-formed values: what [json.load] can return *)

Definition num_ok (lex : string) : Prop :=
  scan_number lex = Some (lex, EmptyString) \/
  lex = "NaN" \/ lex = "Infinity" \/ lex = "-Infinity".

Fixpoint wf (v : json) : Prop :=
  match v with
  | JNum lex => num_ok lex
  | JArr l => (fix all (l : list json) : Prop :=
                 match l with [] => True | x :: r => wf x /\ all r end) l
  | JObj kvs => NoDup (map fst kvs) /\
               (fix all (l : list (string * json)) : Prop :=
                  match l with [] => True | (_, x) :: r => wf x /\ all r end) kvs
  | _ => True
  end.

Fixpoint size (v : json) : nat :=
  match v with
  | JArr l => S (fold_right (fun x n => S (size x + n)) 0 l)
  | JObj kvs => S (fold_right (fun kv n => S (size (snd kv) + n)) 0 kvs)
  | _ => 0
  end.

(** Induction over values, with the hypothesis for every item of an
    array and every value of an object. *)
Definition json_ind' (P : json -> Prop) (Hnull : P JNull)
    (Hbool : forall b, P (JBool b)) (Hnum : forall l, P (JNum l))
    (Hstr : forall s, P (JStr s)) (Harr : forall l, Forall P l -> P (JArr l))
    (Hobj : forall kvs, Forall (fun kv => P (snd kv)) kvs -> P (JObj kvs))
    : forall v, P v :=
  fix go (v : json) : P v :=
    match v with
    | JNull => Hnull
    | JBool b => Hbool b
    | JNum l => Hnum l
    | JStr s => Hstr s
    | JArr l =>
        Harr l ((fix gl (l : list json) : Forall P l :=
                   match l with
                   | [] => Forall_nil P
                   | x :: r => Forall_cons x (go x) (gl r)
                   end) l)
    | JObj kvs =>
        Hobj kvs ((fix gk (kvs : list (string * json))
                     : Forall (fun kv => P (snd kv)) kvs :=
                     match kvs with
                     | [] => Forall_nil _
                     | kv :: r =>
                         Forall_cons kv
                           (match kv as kv0 return P (snd kv0) with
                            | (_, x) => go x
                            end) (gk r)
                     end) kvs)
    end.

(* ------------------------------------------------------------------ *)
(** ** Shapes of encoded text *)

(** The characters that can start an encoded value. *)
Definition starts_value (s : string) : Prop :=
  match s with
  | String c _ => is_ws c = false
  | EmptyString => False
  end.

(** What may follow an encoded value: the end of the text, a comma or
    the newline of the closing indentation. *)
Definition stop (rest : string) : Prop :=
  match rest with
  | EmptyString => True
  | String c _ => c = ","%char \/ c = nl
  end.

(** The text does not start with a digit. *)
Definition nd (t : string) : Prop :=
  match t with String c _ => is_digit c = false | EmptyString => True end.

(* ------------------------------------------------------------------ *)
(** ** Resolving the selected label of the Streamlit page *)

(** [msg == selected_chat_message], a label read from a journal against
    the string of the radio widget: only a string can be equal to it. *)
Definition label_eq (msg : json) (selected : string) : bool :=
  match msg with JStr x => String.eqb x selected | _ => false end.

(** [[tid for tid, msg in saved_threads.items() if msg == selected][0]]
    of [handle_chat_selection] and [delete_selected_chat_callback];
    [None] when no label matches, where [[0]] raises [IndexError]. *)
Fixpoint thread_for_label (threads : list (json * json)) (selected : string) : option json :=
  match threads with
  | [] => None
  | (tid, msg) :: rest => if label_eq msg selected then Some tid else thread_for_label rest selected
  end.

(* ------------------------------------------------------------------ *)
(** ** The saved-thread menu of [client_python.py] ([_list_saved_threads]) *)

(** [data.get(k, default)]: only a dict has [get]. *)
Definition py_get_default (d : json) (k : string) (default : json) : res json :=
  match d with
  | JObj kvs => Ok (match sget k kvs with Some v => v | None => default end)
  | _ => Err AttributeError
  end.

(** [msgs[0][k]] ([last = false]) and [msgs[-1][k]] ([last = true]) for
    a true [msgs]: a list gives its first or last item, a dict raises
    [KeyError] (its keys are strings), a one-character string cannot be
    indexed by a string, a number or [True] is not subscriptable. *)
Definition py_item_key (msgs : json) (last : bool) (k : string) : res json :=
  match msgs with
  | JArr l => match (if last then rev l else l) with
              | x :: _ => py_getitem x k
              | [] => Err KeyError   (* not reached: [msgs] is true *)
              end
  | JObj _ => Err KeyError
  | _ => Err TypeError
  end.

(** The model's text is UTF-8; [len] and slices count code points, the
    bytes that do not continue a multi-byte sequence. *)
Definition is_cont (c : ascii) : bool :=
  (128 <=? nat_of_ascii c) && (nat_of_ascii c <? 192).

Fixpoint cp_length (s : string) : nat :=
  match s with
  | EmptyString => 0
  | String c r => (if is_cont c then 0 else 1) + cp_length r
  end.

(** [s[:n]]. *)
Fixpoint cp_prefix (n : nat) (s : string) : string :=
  match s with
  | EmptyString => EmptyString
  | String c r =>
      if is_cont c then String c (cp_prefix n r)
      else match n with 0 => EmptyString | S n' => String c (cp_prefix n' r) end
  end.

(** [last_text[:57] + "..." if last_text and len(last_text) > 60 else
    last_text]: for a list the concatenation with a string raises
    [TypeError], for a dict the slice does ([TypeError], [KeyError] from
    Python 3.12 on); a number or [True] has no [len]. *)
Definition snippet_of (last_text : json) : res json :=
  if truthy last_text then
    match last_text with
    | JStr s => if 60 <? cp_length s then Ok (JStr (cp_prefix 57 s ++ "...")) else Ok last_text
    | JArr l => if 60 <? length l then Err TypeError else Ok last_text
    | JObj kvs => if 60 <? length kvs then Err TypeError else Ok last_text
    | _ => Err TypeError
    end
  else Ok last_text.

(** [(tid, p, created_ts, last_role, last_text_snippet)]. *)
Record saved_item : Type := mkItem {
  it_tid : json; it_path : string; it_created : json; it_role : json; it_snippet : json
}.

(** The [for p in ...glob(...)] loop of [_list_saved_threads]. *)
Fixpoint collect_saved (paths : list string) (items : list saved_item) : M (list saved_item) :=
  match paths with
  | [] => ret items
  | p :: rest =>
      data <- _load_memory p ;;
      tid <- lift (py_get data "thread_id") ;;
      msgs <- lift (py_get_default data "messages" (JArr [])) ;;
      created_ts <- lift (if truthy msgs then py_item_key msgs false "ts" else Ok JNull) ;;
      last_role <- lift (if truthy msgs then py_item_key msgs true "role" else Ok JNull) ;;
      last_text <- lift (if truthy msgs then py_item_key msgs true "text" else Ok JNull) ;;
      last_text_snippet <- lift (snippet_of last_text) ;;
      collect_saved rest
        (if truthy tid then (items ++ [mkItem tid p created_ts last_role last_text_snippet])%list
         else items)
  end.

(** The sort key [x[2] or ""]. *)
Definition sort_key (it : saved_item) : json :=
  if truthy (it_created it) then it_created it else JStr "".

(** [<] on two sort keys.  Strings compare by code points, which is the
    order of their UTF-8 bytes; a string against another kind of value
    raises [TypeError].  The model raises as well for two keys that are
    both numbers or both lists, which Python orders: a [ts] the clients
    write is always a string. *)
Definition key_lt (a b : json) : res bool :=
  match a, b with
  | JStr x, JStr y => Ok (String.ltb x y)
  | _, _ => Err TypeError
  end.

(** Inserting into a list sorted by decreasing key, after the items of an
    equal key: [items.sort(key=..., reverse=True)] is stable. *)
Fixpoint insert_item (x : saved_item) (l : list saved_item) : res (list saved_item) :=
  match l with
  | [] => Ok [x]
  | y :: ys =>
      match key_lt (sort_key y) (sort_key x) with
      | Err e => Err e
      | Ok true => Ok (x :: l)
      | Ok false => match insert_item x ys with Ok r => Ok (y :: r) | Err e => Err e end
      end
  end.

Fixpoint sort_items_into (l : list saved_item) (acc : list saved_item) : res (list saved_item) :=
  match l with
  | [] => Ok acc
  | x :: rest => match insert_item x acc with Ok acc' => sort_items_into rest acc' | Err e => Err e end
  end.

Definition sort_items (l : list saved_item) : res (list saved_item) := sort_items_into l [].

(** [_list_saved_threads]: the glob yields the matching files in directory
    order. *)
Definition _list_saved_threads : M (list saved_item) :=
  _ <- mkdir_memory ;;
  fun fs => (items <- collect_saved (filter glob_match (map fst (files fs))) [] ;;
             lift (sort_items items)) fs.

(** A journal the menu lists: its [thread_id] is a non-empty string. *)
Definition has_thread_id (v : json) : bool :=
  match v with
  | JObj kvs => match sget "thread_id" kvs with
                | Some (JStr t) => negb (String.eqb t EmptyString)
                | _ => false
                end
  | _ => false
  end.

(** The sort key as a string ([""] for another kind of value). *)
Definition key_str (it : saved_item) : string :=
  match sort_key it with JStr s => s | _ => EmptyString end.

(** The order of the menu, newest first: [a] comes before [b] when the
    key of [a] is not smaller. *)
Definition key_ge (a b : saved_item) : Prop := String.ltb (key_str a) (key_str b) = false.

(* ================================================================== *)
(** A journal file as [json.dump] with the default [ensure_ascii=True]
    writes it: its one message has the lone surrogate [U+D800] as text,
    kept in the file as the escape [\ud800]. *)
Definition escaped_surrogate_journal (tid : json) : string :=
  "{" ++ encode_str "thread_id" ++ ": " ++ dumps tid ++ ", " ++
  encode_str "messages" ++ ": [{" ++
  encode_str "ts" ++ ": " ++ encode_str "T1" ++ ", " ++
  encode_str "role" ++ ": " ++ encode_str "user" ++ ", " ++
  encode_str "text" ++ ": " ++ String dq ("\ud800" ++ String dq EmptyString) ++ ", " ++
  encode_str "message_id" ++ ": " ++ encode_str "m1" ++ "}]}".

(** * Proofs *)

(* ------------------------------------------------------------------ *)
(** ** Strings *)

Lemma sapp_assoc (a b c : string) : (a ++ b) ++ c = a ++ (b ++ c).
Proof. induction a as [|x a IH]; simpl; [reflexivity | now rewrite IH]. Qed.

Lemma sapp_nil_r (a : string) : a ++ EmptyString = a.
Proof. induction a as [|x a IH]; simpl; [reflexivity | now rewrite IH]. Qed.

Lemma slength_app (a b : string) :
  String.length (a ++ b) = String.length a + String.length b.
Proof. induction a as [|x a IH]; simpl; [reflexivity | now rewrite IH]. Qed.

Lemma ceq_true (c : ascii) (n : nat) : ceq c n = true -> c = ascii_of_nat n.
Proof.
  unfold ceq; intros H; apply Nat.eqb_eq in H.
  rewrite <- H; symmetry; apply ascii_nat_embedding.
Qed.

Lemma skip_ws_spaces (n : nat) (s : string) : skip_ws (spaces n ++ s) = skip_ws s.
Proof. induction n as [|n IH]; simpl; [reflexivity | exact IH]. Qed.

Lemma skip_ws_indent (l : nat) (s : string) :
  skip_ws (newline_indent l ++ s) = skip_ws s.
Proof. unfold newline_indent; simpl. apply skip_ws_spaces. Qed.

Lemma skip_ws_start (s : string) : starts_value s -> skip_ws s = s.
Proof. destruct s as [|c r]; simpl; [tauto | intros H; now rewrite H]. Qed.

Lemma skip_ws_idem (s : string) : skip_ws (skip_ws s) = skip_ws s.
Proof.
  induction s as [|c r IH]; simpl; [reflexivity|].
  destruct (is_ws c) eqn:E; [exact IH | simpl; now rewrite E].
Qed.

(* ------------------------------------------------------------------ *)
(** ** Strings survive the encoder and [scanstring] *)

Lemma scan_escape_control (k : nat) (t : string) : k < 32 ->
  scan_str (escape_char (ascii_of_nat k) ++ t) =
  prepend (String (ascii_of_nat k) EmptyString) (scan_str t).
Proof.
  intros Hk.
  do 32 (destruct k as [|k]; [reflexivity|]).
  lia.
Qed.

Lemma scan_escape_char (c : ascii) (t : string) :
  scan_str (escape_char c ++ t) = prepend (String c EmptyString) (scan_str t).
Proof.
  destruct (nat_of_ascii c <? 32) eqn:Hlt.
  - apply Nat.ltb_lt in Hlt.
    rewrite <- (ascii_nat_embedding c). now apply scan_escape_control.
  - destruct (ceq c 34) eqn:E34.
    + apply ceq_true in E34; subst c. reflexivity.
    + destruct (ceq c 92) eqn:E92.
      * apply ceq_true in E92; subst c. reflexivity.
      * apply Nat.ltb_ge in Hlt.
        assert (Hn : forall n, n < 32 -> ceq c n = false).
        { intros n Hn; unfold ceq; apply Nat.eqb_neq; lia. }
        unfold escape_char.
        rewrite E34, E92, (Hn 10), (Hn 13), (Hn 9), (Hn 8), (Hn 12) by lia.
        assert (Hlt' : (nat_of_ascii c <? 32) = false) by (apply Nat.ltb_ge; lia).
        rewrite Hlt'. simpl. rewrite E34, E92, Hlt'. reflexivity.
Qed.

Lemma scan_str_escape (s rest : string) :
  scan_str (escape s ++ String dq rest) = Some (s, rest).
Proof.
  induction s as [|c s IH]; simpl.
  - reflexivity.
  - rewrite sapp_assoc, scan_escape_char, IH. reflexivity.
Qed.

(* ------------------------------------------------------------------ *)
(** ** Numbers: the scanner stops at a separator and accepts its own
       lexemes *)

Lemma span_digits_app (s rest : string) : stop rest ->
  span_digits (s ++ rest) = (fst (span_digits s), snd (span_digits s) ++ rest).
Proof.
  intros Hs. induction s as [|c s IH]; simpl.
  - destruct rest as [|c r]; simpl; [reflexivity|].
    destruct Hs as [-> | ->]; reflexivity.
  - destruct (is_digit c); [|reflexivity].
    rewrite IH. destruct (span_digits s); reflexivity.
Qed.

Lemma scan_int_app (s rest : string) : stop rest ->
  scan_int (s ++ rest) =
  match scan_int s with Some (i, r) => Some (i, r ++ rest) | None => None end.
Proof.
  intros Hs. destruct s as [|c s]; simpl.
  - destruct rest as [|c r]; simpl; [reflexivity|].
    destruct Hs as [-> | ->]; reflexivity.
  - destruct (Ascii.eqb c "0"); [reflexivity|].
    destruct (is_digit c); [|reflexivity].
    rewrite (span_digits_app s rest Hs). destruct (span_digits s); reflexivity.
Qed.

Lemma scan_frac_app (s rest : string) : stop rest ->
  scan_frac (s ++ rest) = (fst (scan_frac s), snd (scan_frac s) ++ rest).
Proof.
  intros Hs. destruct s as [|c s]; simpl.
  - destruct rest as [|c r]; simpl; [reflexivity|].
    destruct Hs as [-> | ->]; reflexivity.
  - destruct (Ascii.eqb c "."); [|reflexivity].
    rewrite (span_digits_app s rest Hs).
    destruct (span_digits s) as [[|d ds] r]; reflexivity.
Qed.

Lemma scan_sign_app (s rest : string) : stop rest ->
  scan_sign (s ++ rest) = (fst (scan_sign s), snd (scan_sign s) ++ rest).
Proof.
  intros Hs. destruct s as [|c s]; simpl.
  - destruct rest as [|c r]; simpl; [reflexivity|].
    destruct Hs as [-> | ->]; reflexivity.
  - destruct (Ascii.eqb c "+" || Ascii.eqb c "-"); reflexivity.
Qed.

Lemma scan_exp_app (s rest : string) : stop rest ->
  scan_exp (s ++ rest) = (fst (scan_exp s), snd (scan_exp s) ++ rest).
Proof.
  intros Hs. destruct s as [|c s]; simpl.
  - destruct rest as [|c r]; simpl; [reflexivity|].
    destruct Hs as [-> | ->]; reflexivity.
  - destruct (Ascii.eqb c "e" || Ascii.eqb c "E"); [|reflexivity].
    rewrite (scan_sign_app s rest Hs). destruct (scan_sign s) as [sg r1]; simpl.
    rewrite (span_digits_app r1 rest Hs).
    destruct (span_digits r1) as [[|d ds] r2]; reflexivity.
Qed.

Lemma scan_minus_app (s rest : string) : stop rest ->
  scan_minus (s ++ rest) = (fst (scan_minus s), snd (scan_minus s) ++ rest).
Proof.
  intros Hs. destruct s as [|c s]; simpl.
  - destruct rest as [|c r]; simpl; [reflexivity|].
    destruct Hs as [-> | ->]; reflexivity.
  - destruct (Ascii.eqb c "-"); reflexivity.
Qed.

Lemma scan_number_app (s rest : string) : stop rest ->
  scan_number (s ++ rest) =
  match scan_number s with Some (l, r) => Some (l, r ++ rest) | None => None end.
Proof.
  intros Hs. unfold scan_number.
  rewrite (scan_minus_app s rest Hs). destruct (scan_minus s) as [sg s1]; simpl.
  rewrite (scan_int_app s1 rest Hs). destruct (scan_int s1) as [[i s2]|]; [|reflexivity].
  rewrite (scan_frac_app s2 rest Hs). destruct (scan_frac s2) as [f s3]; simpl.
  rewrite (scan_exp_app s3 rest Hs). destruct (scan_exp s3) as [e s4]; reflexivity.
Qed.

Lemma scan_number_roundtrip (lex rest : string) :
  scan_number lex = Some (lex, EmptyString) -> stop rest ->
  scan_number (lex ++ rest) = Some (lex, rest).
Proof. intros H Hs. rewrite (scan_number_app lex rest Hs), H. reflexivity. Qed.

Lemma digit_ne (c d : ascii) : is_digit c = true -> is_digit d = false ->
  Ascii.eqb c d = false /\ Ascii.eqb d c = false.
Proof.
  intros Hc Hd. destruct (Ascii.eqb_spec c d) as [->|Hne].
  - congruence.
  - split; [reflexivity|]. destruct (Ascii.eqb_spec d c); congruence.
Qed.

Lemma digit_ceq (c : ascii) (n : nat) : is_digit c = true -> (n < 48 \/ 57 < n) ->
  ceq c n = false.
Proof.
  unfold is_digit, ceq; intros H Hn. apply andb_prop in H as [H1 H2].
  apply Nat.leb_le in H1; apply Nat.leb_le in H2. apply Nat.eqb_neq. lia.
Qed.

Lemma digit_not_ws (c : ascii) : is_digit c = true -> is_ws c = false.
Proof.
  intros H. unfold is_ws.
  rewrite !(digit_ceq c) by (assumption || lia). reflexivity.
Qed.

Lemma span_digits_out (s d r : string) : span_digits s = (d, r) ->
  forallb is_digit (list_ascii_of_string d) = true /\ nd r /\ s = d ++ r.
Proof.
  revert d r. induction s as [|c s IH]; simpl; intros d r H.
  - inversion H; subst. simpl. auto.
  - destruct (is_digit c) eqn:Ec.
    + destruct (span_digits s) as [d' r'] eqn:Es.
      destruct (IH d' r' eq_refl) as (A & B & C). inversion H; subst.
      simpl. rewrite Ec, A. auto.
    + inversion H; subst. simpl. auto.
Qed.

Lemma span_digits_in (d t : string) :
  forallb is_digit (list_ascii_of_string d) = true -> nd t -> span_digits (d ++ t) = (d, t).
Proof.
  induction d as [|c d IH]; simpl.
  - destruct t as [|c t]; simpl; [reflexivity|]. intros _ H. rewrite H. reflexivity.
  - intros H Ht. apply andb_prop in H as [H1 H2]. rewrite H1, IH by assumption. reflexivity.
Qed.

(** The shape of an exponent part: empty, or starting with [e] or [E]. *)
Lemma nd_exp (e : string) :
  (e = EmptyString \/ exists c r, e = String c r /\ (c = "e"%char \/ c = "E"%char)) -> nd e.
Proof. intros [->|(c & r & -> & [-> | ->])]; simpl; reflexivity. Qed.

Lemma scan_minus_out (s m r : string) : scan_minus s = (m, r) ->
  s = m ++ r /\ (m = EmptyString \/ m = "-").
Proof.
  destruct s as [|c s]; simpl; intros H.
  - inversion H; auto.
  - destruct (Ascii.eqb_spec c "-") as [->|]; inversion H; subst; auto.
Qed.

Lemma scan_minus_in (m X : string) : (m = EmptyString \/ m = "-") ->
  (exists d Y, X = String d Y /\ is_digit d = true) -> scan_minus (m ++ X) = (m, X).
Proof.
  intros [-> | ->] (d & Y & -> & Hd); simpl; [|reflexivity].
  destruct (digit_ne d "-" Hd eq_refl) as [-> _]. reflexivity.
Qed.

Lemma scan_int_out (s i r : string) : scan_int s = Some (i, r) ->
  s = i ++ r /\ (exists c d, i = String c d /\ is_digit c = true) /\
  (forall t, nd t -> scan_int (i ++ t) = Some (i, t)).
Proof.
  destruct s as [|c s]; simpl; [discriminate|].
  destruct (Ascii.eqb c "0") eqn:E0.
  - intros H; inversion H; subst. apply Ascii.eqb_eq in E0; subst.
    split; [reflexivity|]. split; [exists "0"%char, EmptyString; split; reflexivity|].
    intros t _. reflexivity.
  - destruct (is_digit c) eqn:Ed; [|discriminate].
    destruct (span_digits s) as [ds r'] eqn:Es. intros H; inversion H; subst.
    destruct (span_digits_out _ _ _ Es) as (A & B & ->).
    split; [reflexivity|]. split; [exists c, ds; auto|].
    intros t Ht. simpl. rewrite E0, Ed, span_digits_in by assumption. reflexivity.
Qed.

Lemma scan_frac_out (s f r : string) : scan_frac s = (f, r) ->
  s = f ++ r /\
  (f = EmptyString \/ exists ds, f = String "." ds /\ ds <> EmptyString /\
                                 forallb is_digit (list_ascii_of_string ds) = true).
Proof.
  destruct s as [|c s]; simpl.
  - intros H; inversion H; subst; auto.
  - destruct (Ascii.eqb c ".") eqn:E.
    + destruct (span_digits s) as [[|d ds] r'] eqn:Es; intros H; inversion H; subst.
      * auto.
      * destruct (span_digits_out _ _ _ Es) as (A & B & ->).
        apply Ascii.eqb_eq in E; subst. split; [reflexivity|]. right.
        exists (String d ds). split; [reflexivity|]. split; [discriminate|exact A].
    + intros H; inversion H; subst; auto.
Qed.

Lemma scan_frac_in (f e : string) :
  (f = EmptyString \/ exists ds, f = String "." ds /\ ds <> EmptyString /\
                                 forallb is_digit (list_ascii_of_string ds) = true) ->
  (e = EmptyString \/ exists c r, e = String c r /\ (c = "e"%char \/ c = "E"%char)) ->
  scan_frac (f ++ e) = (f, e).
Proof.
  intros Hf He. destruct Hf as [-> | (ds & -> & Hne & Hds)].
  - destruct He as [-> | (c & r & -> & [-> | ->])]; reflexivity.
  - simpl. rewrite span_digits_in by (assumption || now apply nd_exp).
    destruct ds; [congruence | reflexivity].
Qed.

Lemma scan_sign_in (s sg r X : string) : scan_sign s = (sg, r) ->
  (exists d Y, X = String d Y /\ is_digit d = true) ->
  s = sg ++ r /\ scan_sign (sg ++ X) = (sg, X).
Proof.
  intros H (d & Y & -> & Hd).
  destruct s as [|c s]; simpl in H.
  - inversion H; subst. simpl. split; [reflexivity|].
    destruct (digit_ne d "+" Hd eq_refl) as [-> _].
    destruct (digit_ne d "-" Hd eq_refl) as [-> _]. reflexivity.
  - destruct (Ascii.eqb c "+" || Ascii.eqb c "-") eqn:E; inversion H; subst.
    + simpl. rewrite E. auto.
    + simpl. split; [reflexivity|].
      destruct (digit_ne d "+" Hd eq_refl) as [-> _].
      destruct (digit_ne d "-" Hd eq_refl) as [-> _]. reflexivity.
Qed.

Lemma scan_exp_out (s e r : string) : scan_exp s = (e, r) ->
  s = e ++ r /\
  (e = EmptyString \/ exists c r, e = String c r /\ (c = "e"%char \/ c = "E"%char)) /\
  scan_exp e = (e, EmptyString).
Proof.
  destruct s as [|c s]; simpl.
  - intros H; inversion H; subst. auto.
  - destruct (Ascii.eqb c "e" || Ascii.eqb c "E") eqn:E.
    + destruct (scan_sign s) as [sg r1] eqn:Esg.
      destruct (span_digits r1) as [[|d ds] r2] eqn:Es; intros H; inversion H; subst.
      * auto.
      * destruct (span_digits_out _ _ _ Es) as (A & B & ->).
        simpl in A. apply andb_prop in A as [Ad Ads].
        destruct (scan_sign_in s sg _ (String d ds) Esg)
          as [Hs Hsg]; [exists d, ds; auto|].
        subst s. split; [simpl; now rewrite sapp_assoc|]. split.
        { right. exists c, (sg ++ String d ds). split; [reflexivity|].
          apply orb_true_iff in E as [E|E]; apply Ascii.eqb_eq in E; auto. }
        simpl. rewrite E, Hsg. simpl.
        rewrite Ad. rewrite <- (sapp_nil_r ds) at 1.
        rewrite span_digits_in by (exact Ads || exact I). reflexivity.
    + intros H; inversion H; subst. auto.
Qed.

Lemma scan_number_idem (s l r : string) : scan_number s = Some (l, r) ->
  s = l ++ r /\ scan_number l = Some (l, EmptyString) /\
  exists c t, l = String c t /\ (c = "-"%char \/ is_digit c = true).
Proof.
  unfold scan_number.
  destruct (scan_minus s) as [m s1] eqn:Em.
  destruct (scan_int s1) as [[i s2]|] eqn:Ei; [|discriminate].
  destruct (scan_frac s2) as [fr s3] eqn:Ef.
  destruct (scan_exp s3) as [e s4] eqn:Ee.
  intros H; inversion H; subst; clear H.
  destruct (scan_minus_out _ _ _ Em) as [Hs Hm].
  destruct (scan_int_out _ _ _ Ei) as (Hs1 & (c0 & d0 & Hi & Hc0) & Hin).
  destruct (scan_frac_out _ _ _ Ef) as [Hs2 Hfr].
  destruct (scan_exp_out _ _ _ Ee) as (Hs3 & He & Hee).
  subst. split; [now rewrite !sapp_assoc|]. split.
  - rewrite scan_minus_in by (exact Hm || (exists c0, (d0 ++ fr ++ e); auto)).
    cbv beta iota.
    rewrite Hin.
    + cbv beta iota. rewrite scan_frac_in by assumption. rewrite Hee. reflexivity.
    + destruct Hfr as [-> | (ds & -> & _)]; [now apply nd_exp | reflexivity].
  - destruct Hm as [-> | ->].
    + exists c0, (d0 ++ fr ++ e). auto.
    + exists "-"%char, (String c0 d0 ++ fr ++ e). auto.
Qed.

(* ------------------------------------------------------------------ *)
(** ** [json.loads] reads back what [json.dump] wrote *)

Lemma sapp_cons (c : ascii) (s t : string) : String c s ++ t = String c (s ++ t).
Proof. reflexivity. Qed.

Lemma encode_str_app (k Y : string) :
  encode_str k ++ Y = String dq (escape k ++ String dq Y).
Proof. unfold encode_str. simpl. rewrite sapp_assoc. reflexivity. Qed.

Lemma skip_ws_space (s : string) : skip_ws (String " " s) = skip_ws s.
Proof. reflexivity. Qed.

Lemma stop_nl (l : nat) (X : string) : stop (newline_indent l ++ X).
Proof. simpl. right. reflexivity. Qed.

Lemma iterencode_head (lvl : nat) (v : json) : wf v ->
  exists c t, iterencode lvl v = String c t /\ is_ws c = false /\
              Ascii.eqb c "]" = false /\ Ascii.eqb c "}" = false.
Proof.
  destruct v as [| [|] | lex | s | [|x xs] | [|[k x] kvs]]; simpl; intros Hw;
    try (eexists _, _; split; [reflexivity | repeat split; reflexivity]).
  destruct Hw as [H | [-> | [-> | ->]]];
    try (eexists _, _; split; [reflexivity | repeat split; reflexivity]).
  destruct (scan_number_idem _ _ _ H) as (_ & _ & c & t & -> & [-> | Hd]);
    [eexists _, _; split; [reflexivity | repeat split; reflexivity]|].
  exists c, t. split; [reflexivity|]. split; [now apply digit_not_ws|].
  split; apply (digit_ne c); auto.
Qed.

Lemma starts_enc (lvl : nat) (v : json) (Z : string) : wf v ->
  starts_value (iterencode lvl v ++ Z).
Proof.
  intros Hw. destruct (iterencode_head lvl v Hw) as (c & t & -> & Hws & _).
  exact Hws.
Qed.

Lemma strip_prefix_miss (a c : ascii) (p r : string) :
  Ascii.eqb a c = false -> strip_prefix (String a p) (String c r) = None.
Proof. intros H. simpl. now rewrite H. Qed.

(** A text that starts with a digit or a minus sign is read as a number. *)
Lemma parse_value_fall (f : nat) (c : ascii) (r lex rest : string) :
  ceq c 34 = false -> Ascii.eqb c "{" = false -> Ascii.eqb c "[" = false ->
  Ascii.eqb "n" c = false -> Ascii.eqb "t" c = false -> Ascii.eqb "f" c = false ->
  scan_number (String c r) = Some (lex, rest) ->
  parse_value (S f) (String c r) = Some (JNum lex, rest).
Proof.
  intros H1 H2 H3 H4 H5 H6 Hn. cbn [parse_value].
  rewrite H1, H2, H3.
  rewrite (strip_prefix_miss "n" c), (strip_prefix_miss "t" c),
    (strip_prefix_miss "f" c) by assumption.
  rewrite Hn. reflexivity.
Qed.

Lemma parse_value_num (f : nat) (lex rest : string) : num_ok lex -> stop rest ->
  parse_value (S f) (lex ++ rest) = Some (JNum lex, rest).
Proof.
  intros [H | [-> | [-> | ->]]] Hs; try reflexivity.
  pose proof (scan_number_roundtrip lex rest H Hs) as Hr.
  destruct (scan_number_idem _ _ _ H) as (_ & _ & c & t & -> & Hc).
  rewrite sapp_cons in *. destruct Hc as [-> | Hd].
  - apply parse_value_fall; [reflexivity .. | exact Hr].
  - apply parse_value_fall; try exact Hr.
    + apply digit_ceq; [exact Hd | lia].
    + exact (proj1 (digit_ne c "{" Hd eq_refl)).
    + exact (proj1 (digit_ne c "[" Hd eq_refl)).
    + exact (proj2 (digit_ne c "n" Hd eq_refl)).
    + exact (proj2 (digit_ne c "t" Hd eq_refl)).
    + exact (proj2 (digit_ne c "f" Hd eq_refl)).
Qed.

Lemma pv_str (f : nat) (r : string) :
  parse_value (S f) (String dq r) =
  match scan_str r with Some (d, rest) => Some (JStr d, rest) | None => None end.
Proof. reflexivity. Qed.

Lemma pv_arr (f : nat) (r : string) :
  parse_value (S f) (String "[" r) =
  match skip_ws r with
  | String c' r' =>
      if Ascii.eqb c' "]" then Some (JArr [], r')
      else match parse_elems f (skip_ws r) with
           | Some (vs, rest) => Some (JArr vs, rest)
           | None => None
           end
  | EmptyString => None
  end.
Proof. reflexivity. Qed.

Lemma pv_obj (f : nat) (r : string) :
  parse_value (S f) (String "{" r) =
  match skip_ws r with
  | String c' r' =>
      if Ascii.eqb c' "}" then Some (JObj [], r')
      else match parse_members f [] (skip_ws r) with
           | Some (kvs, rest) => Some (JObj kvs, rest)
           | None => None
           end
  | EmptyString => None
  end.
Proof. reflexivity. Qed.

Lemma pe_step (f : nat) (s : string) :
  parse_elems (S f) s =
  match parse_value f s with
  | None => None
  | Some (v, r) =>
    match skip_ws r with
    | String c r' =>
        if Ascii.eqb c "]" then Some ([v], r')
        else if Ascii.eqb c "," then
          match parse_elems f (skip_ws r') with
          | Some (vs, r'') => Some (v :: vs, r'')
          | None => None
          end
        else None
    | EmptyString => None
    end
  end.
Proof. reflexivity. Qed.

Lemma pm_str (f : nat) (acc : list (string * json)) (r : string) :
  parse_members (S f) acc (String dq r) =
  match scan_str r with
  | None => None
  | Some (k, r1) =>
    match skip_ws r1 with
    | String c1 r2 =>
      if Ascii.eqb c1 ":" then
        match parse_value f (skip_ws r2) with
        | None => None
        | Some (v, r3) =>
          match skip_ws r3 with
          | String c2 r4 =>
              if Ascii.eqb c2 "}" then Some (sset k v acc, r4)
              else if Ascii.eqb c2 "," then parse_members f (sset k v acc) (skip_ws r4)
              else None
          | EmptyString => None
          end
        end
      else None
    | EmptyString => None
    end
  end.
Proof. reflexivity. Qed.

Lemma sset_absent (k : string) (v : json) (acc : list (string * json)) :
  ~ In k (map fst acc) -> sset k v acc = (acc ++ [(k, v)])%list.
Proof.
  unfold sset. induction acc as [|[k' v'] acc IH]; simpl; intros H; [reflexivity|].
  destruct (String.eqb_spec k' k) as [->|Hne]; [tauto|].
  rewrite IH by tauto. reflexivity.
Qed.

Lemma roundtrip_fuel (f : nat) :
  (forall v lvl rest, wf v -> size v < f -> stop rest ->
     parse_value f (iterencode lvl v ++ rest) = Some (v, rest)) /\
  (forall x xs lvl rest, wf (JArr (x :: xs)) -> size (JArr (x :: xs)) <= f -> stop rest ->
     parse_elems f (iterencode (S lvl) x ++
       concat_str (map (fun y => "," ++ newline_indent (S lvl) ++ iterencode (S lvl) y) xs) ++
       newline_indent lvl ++ "]" ++ rest) = Some (x :: xs, rest)) /\
  (forall k x kvs acc lvl rest, wf (JObj ((k, x) :: kvs)) ->
     NoDup (map fst (acc ++ (k, x) :: kvs)%list) ->
     size (JObj ((k, x) :: kvs)) <= f -> stop rest ->
     parse_members f acc (encode_str k ++ ": " ++ iterencode (S lvl) x ++
       concat_str (map (fun kv => "," ++ newline_indent (S lvl) ++ encode_str (fst kv) ++
                                  ": " ++ iterencode (S lvl) (snd kv)) kvs) ++
       newline_indent lvl ++ "}" ++ rest) = Some ((acc ++ (k, x) :: kvs)%list, rest)).
Proof.
  induction f as [|f IH].
  { split; [|split]; intros; simpl in *; lia. }
  destruct IH as (IH1 & IH2 & IH3). split; [|split].
  - intros v lvl rest Hw Hsz Hs.
    destruct v as [| b | lex | s | [|x xs] | [|[k x] kvs]].
    + reflexivity.
    + destruct b; reflexivity.
    + now apply parse_value_num.
    + cbn [iterencode]. rewrite encode_str_app, pv_str, scan_str_escape. reflexivity.
    + reflexivity.
    + cbn [iterencode]. rewrite !sapp_assoc. cbn [append].
      rewrite pv_arr, skip_ws_indent.
      assert (H2 := IH2 x xs lvl rest Hw ltac:(simpl in *; lia) Hs).
      destruct (iterencode_head (S lvl) x (proj1 Hw)) as (c & t & Hx & Hws & Hb & _).
      rewrite Hx in H2 |- *. cbn [append skip_ws] in H2 |- *.
      rewrite Hws. cbv beta iota. rewrite Hb, H2. reflexivity.
    + reflexivity.
    + cbn [iterencode]. rewrite !sapp_assoc. cbn [append].
      rewrite pv_obj, skip_ws_indent.
      assert (H3 := IH3 k x kvs [] lvl rest Hw ltac:(simpl; exact (proj1 Hw))
                      ltac:(simpl in *; lia) Hs).
      rewrite encode_str_app in H3 |- *. cbn [append] in H3.
      rewrite (skip_ws_start (String dq _)) by reflexivity.
      cbv beta iota. rewrite H3. reflexivity.
  - intros x xs lvl rest Hw Hsz Hs. rewrite pe_step.
    destruct Hw as [Hwx Hwxs].
    destruct xs as [|y ys].
    + cbn [concat_str map fold_right append].
      rewrite IH1 by first [exact Hwx | apply stop_nl | simpl in *; lia].
      cbv beta iota. rewrite skip_ws_indent.
      rewrite (skip_ws_start (String "]" _)) by reflexivity. reflexivity.
    + cbn [concat_str map fold_right append]. rewrite !sapp_assoc.
      cbn [append].
      rewrite IH1 by first [exact Hwx | simpl; left; reflexivity | simpl in *; lia].
      cbv beta iota.
      rewrite (skip_ws_start (String "," _)) by reflexivity.
      cbv beta iota.
      rewrite skip_ws_indent, (skip_ws_start _ (starts_enc _ _ _ (proj1 Hwxs))).
      assert (H2 := IH2 y ys lvl rest Hwxs ltac:(simpl in *; lia) Hs).
      unfold concat_str in H2. cbn [append] in H2. rewrite H2. reflexivity.
  - intros k x kvs acc lvl rest Hw Hnd Hsz Hs.
    assert (Hk : ~ In k (map fst acc)).
    { rewrite map_app in Hnd. simpl in Hnd. apply NoDup_remove_2 in Hnd.
      rewrite in_app_iff in Hnd. tauto. }
    destruct Hw as [Hndk [Hwx Hwkvs]].
    rewrite encode_str_app, pm_str, scan_str_escape. cbv beta iota.
    cbn [append]. rewrite (skip_ws_start (String ":" _)) by reflexivity.
    cbv beta iota. rewrite skip_ws_space.
    rewrite (skip_ws_start _ (starts_enc _ _ _ Hwx)).
    destruct kvs as [|[k' x'] kvs].
    + cbn [concat_str map fold_right append].
      rewrite IH1 by first [exact Hwx | apply stop_nl | simpl in *; lia].
      cbv beta iota. rewrite skip_ws_indent.
      rewrite (skip_ws_start (String "}" _)) by reflexivity.
      rewrite sset_absent by exact Hk. reflexivity.
    + cbn [concat_str map fold_right append fst snd]. rewrite !sapp_assoc.
      cbn [append].
      rewrite IH1 by first [exact Hwx | simpl; left; reflexivity | simpl in *; lia].
      cbv beta iota.
      rewrite (skip_ws_start (String "," _)) by reflexivity.
      cbv beta iota.
      rewrite skip_ws_indent.
      rewrite (skip_ws_start (encode_str k' ++ _)) by (rewrite encode_str_app; reflexivity).
      rewrite sset_absent by exact Hk.
      assert (H3 := IH3 k' x' kvs (acc ++ [(k, x)])%list lvl rest).
      unfold concat_str in H3. cbn [append] in H3. rewrite H3.
      * rewrite <- app_assoc. reflexivity.
      * split; [inversion Hndk; assumption | exact Hwkvs].
      * rewrite <- app_assoc. exact Hnd.
      * simpl in *; lia.
      * exact Hs.
Qed.

Lemma spaces_length (n : nat) : String.length (spaces n) = n.
Proof. induction n as [|n IH]; simpl; [reflexivity | now rewrite IH]. Qed.

Lemma size_le (v : json) : forall lvl, size v <= String.length (iterencode lvl v).
Proof.
  induction v as [| b | lex | s | l IHl | kvs IHk] using json_ind'; intros lvl;
    try (simpl; lia).
  - destruct l as [|x xs]; [simpl; lia|].
    inversion IHl as [|? ? Hx Hxs]; subst.
    assert (Ht : forall L, fold_right (fun x n => S (size x + n)) 0 xs <=
              String.length (concat_str (map (fun y => "," ++ newline_indent L ++
                                                   iterencode L y) xs))).
    { intros L. clear IHl. induction Hxs as [|y ys Hy Hys IH]; [simpl; lia|].
      unfold concat_str in *. cbn [map fold_right]. rewrite !slength_app.
      cbn [String.length]. specialize (Hy L). lia. }
    cbn [iterencode size fold_right]. rewrite !slength_app. cbn [String.length].
    specialize (Hx (S lvl)). specialize (Ht (S lvl)). lia.
  - destruct kvs as [|[k x] kvs]; [simpl; lia|].
    inversion IHk as [|? ? Hx Hxs]; subst.
    assert (Ht : forall L, fold_right (fun kv n => S (size (snd kv) + n)) 0 kvs <=
              String.length (concat_str (map (fun kv => "," ++ newline_indent L ++
                  encode_str (fst kv) ++ ": " ++ iterencode L (snd kv)) kvs))).
    { intros L. clear IHk. induction Hxs as [|y ys Hy Hys IH]; [simpl; lia|].
      unfold concat_str in *. cbn [map fold_right]. rewrite !slength_app.
      cbn [String.length]. specialize (Hy L). lia. }
    cbn [iterencode size fold_right snd]. rewrite !slength_app. cbn [String.length].
    specialize (Hx (S lvl)). specialize (Ht (S lvl)). simpl in Hx. lia.
Qed.

(** [json.loads(json.dumps(v, ensure_ascii=False, indent=2)) == v]. *)
Lemma loads_dumps (v : json) : wf v -> loads (dumps v) = Some v.
Proof.
  intros Hw. unfold loads, dumps.
  assert (H := proj1 (roundtrip_fuel (S (String.length (iterencode 0 v))))
                 v 0 EmptyString Hw ltac:(pose proof (size_le v 0); lia) I).
  rewrite sapp_nil_r in H.
  assert (Hst := starts_enc 0 v EmptyString Hw). rewrite sapp_nil_r in Hst.
  rewrite (skip_ws_start _ Hst), H. reflexivity.
Qed.

(* ------------------------------------------------------------------ *)
(** ** What [json.loads] returns is well formed *)

Lemma sset_keys (k : string) (v : json) (acc : list (string * json)) (x : string) :
  In x (map fst (sset k v acc)) -> x = k \/ In x (map fst acc).
Proof.
  unfold sset. induction acc as [|[k' v'] acc IH]; simpl.
  - intuition.
  - destruct (String.eqb k' k); simpl; intuition.
Qed.

Lemma sset_wf (k : string) (v : json) (acc : list (string * json)) :
  wf (JObj acc) -> wf v -> wf (JObj (sset k v acc)).
Proof.
  intros [Hnd Hall] Hv. induction acc as [|[k' v'] acc IH].
  - simpl. split; [constructor; [simpl; tauto | constructor] | auto].
  - simpl in Hall. destruct Hall as [Hv' Hall]. inversion Hnd as [|? ? Hni Hnd']; subst.
    unfold sset; simpl. destruct (String.eqb_spec k' k) as [->|Hne].
    + simpl. split; [exact Hnd | auto].
    + destruct (IH Hnd' Hall) as [IHn IHa]. simpl. split; [|split; assumption].
      constructor; [|exact IHn].
      intros Hin. apply sset_keys in Hin as [->|Hin]; [congruence | contradiction].
Qed.

Ltac split_matches H :=
  repeat match type of H with
  | context [match ?x with _ => _ end] =>
      let E := fresh "E" in destruct x eqn:E; try discriminate H
  end.

Lemma parse_sound (f : nat) :
  (forall s v r, parse_value f s = Some (v, r) -> wf v) /\
  (forall s vs r, parse_elems f s = Some (vs, r) -> wf (JArr vs)) /\
  (forall acc s kvs r, wf (JObj acc) -> parse_members f acc s = Some (kvs, r) ->
                       wf (JObj kvs)).
Proof.
  induction f as [|f (IH1 & IH2 & IH3)];
    [split; [|split]; intros; simpl in *; discriminate|].
  split; [|split].
  - intros s v r H. destruct s as [|c s]; [discriminate|].
    cbn [parse_value] in H. split_matches H; inversion H; subst; simpl;
      solve [exact I | split; [constructor | exact I]
            | right; left; reflexivity | right; right; left; reflexivity
            | right; right; right; reflexivity
            | left; eapply scan_number_idem; eassumption
            | eapply IH2; eassumption
            | eapply IH3; [|eassumption]; simpl; split; [constructor | exact I]].
  - intros s vs r H. rewrite pe_step in H. split_matches H; inversion H; subst.
    + simpl. split; [eapply IH1; eassumption | exact I].
    + simpl. split; [eapply IH1; eassumption|].
      exact (IH2 _ _ _ ltac:(eassumption)).
  - intros acc s kvs r Hacc H. destruct s as [|c s]; [discriminate|].
    cbn [parse_members] in H. split_matches H; inversion H; subst.
    + apply sset_wf; [exact Hacc | eapply IH1; eassumption].
    + eapply IH3; [|eassumption]. apply sset_wf; [exact Hacc | eapply IH1; eassumption].
Qed.

Lemma loads_wf (s : string) (v : json) : loads s = Some v -> wf v.
Proof.
  unfold loads. destruct (parse_value _ _) as [[v' rest]|] eqn:E; [|discriminate].
  destruct (skip_ws rest); [|discriminate]. intros H; inversion H; subst.
  exact (proj1 (parse_sound _) _ _ _ E).
Qed.

(* ------------------------------------------------------------------ *)
(** ** Dicts, files and the journal on disk *)

Lemma dict_get_set_same {V : Type} (k : string) (v : V) (d : list (string * V)) :
  dict_get String.eqb k (dict_set String.eqb k v d) = Some v.
Proof.
  induction d as [|[k' v'] d IH]; simpl.
  - now rewrite String.eqb_refl.
  - destruct (String.eqb k' k) eqn:E; simpl; rewrite ?E; [reflexivity | exact IH].
Qed.

Lemma dict_get_set_other {V : Type} (k q : string) (v : V) (d : list (string * V)) :
  q <> k -> dict_get String.eqb q (dict_set String.eqb k v d) = dict_get String.eqb q d.
Proof.
  intros Hne. induction d as [|[k' v'] d IH]; simpl.
  - destruct (String.eqb_spec k q); [congruence | reflexivity].
  - destruct (String.eqb_spec k' k) as [->|Hk]; simpl.
    + destruct (String.eqb_spec k q); [congruence | reflexivity].
    + destruct (String.eqb k' q); [reflexivity | exact IH].
Qed.

Lemma sget_sset_same (k : string) (v : json) (d : list (string * json)) :
  sget k (sset k v d) = Some v.
Proof. apply dict_get_set_same. Qed.

Lemma sset_sset_same (k : string) (v v' : json) (d : list (string * json)) :
  sset k v (sset k v' d) = sset k v d.
Proof.
  unfold sset. induction d as [|[k' x] d IH]; simpl.
  - now rewrite String.eqb_refl.
  - destruct (String.eqb k' k) eqn:E; simpl; rewrite E; [reflexivity | now rewrite IH].
Qed.


Lemma file_get_remove (name : string) (l : list (string * string)) :
  file_get name (file_remove name l) = None.
Proof.
  unfold file_get, file_remove. induction l as [|[n c] l IH]; simpl; [reflexivity|].
  destruct (String.eqb_spec n name) as [->|Hne]; simpl; [exact IH|].
  destruct (String.eqb_spec n name); [congruence | exact IH].
Qed.

Lemma file_get_remove_other (name q : string) (l : list (string * string)) :
  q <> name -> file_get q (file_remove name l) = file_get q l.
Proof.
  intros Hq. unfold file_get, file_remove. induction l as [|[n c] l IH]; simpl; [reflexivity|].
  destruct (String.eqb_spec n name) as [->|Hne]; simpl.
  - destruct (String.eqb_spec name q); [congruence | exact IH].
  - destruct (String.eqb n q); [reflexivity | exact IH].
Qed.

Lemma wf_arr (l : list json) : wf (JArr l) <-> Forall wf l.
Proof.
  induction l as [|x l IH]; simpl; split.
  - constructor.
  - tauto.
  - intros [Hx Hl]. constructor; [exact Hx | now apply IH].
  - intros H. inversion H; subst. split; [assumption | now apply IH].
Qed.

Lemma wf_sget (kvs : list (string * json)) (k : string) (v : json) :
  wf (JObj kvs) -> sget k kvs = Some v -> wf v.
Proof.
  intros [_ Hall]. unfold sget. induction kvs as [|[k' x] kvs IH]; simpl in *;
    [discriminate|].
  destruct Hall as [Hx Hall].
  destruct (String.eqb k' k); [intros H; inversion H; subst; exact Hx | exact (IH Hall)].
Qed.

Lemma wf_mk_entry (ts role text : string) (mid : option string) :
  wf (mk_entry ts role text mid).
Proof.
  unfold mk_entry. split.
  - repeat constructor; simpl; intuition discriminate.
  - destruct mid; simpl; tauto.
Qed.

Lemma wf_empty_journal : wf empty_journal.
Proof. split; [repeat constructor; simpl; intuition discriminate | simpl; tauto]. Qed.

Lemma Forall_lastn {A} (P : A -> Prop) (n : nat) (l : list A) :
  Forall P l -> Forall P (lastn n l).
Proof.
  unfold lastn. intros H. rewrite Forall_forall in *. intros x Hx.
  apply H. exact (In_skipn _ _ _ Hx) || (eapply in_skipn; eassumption)
    || (rewrite <- (firstn_skipn (length l - n) l); apply in_or_app; now right).
Qed.

(** [_load_memory] never raises, leaves the disk as it is, and returns the
    parsed content of the file, or the empty journal when the file is
    missing or does not parse. *)
Lemma load_spec (p : string) (fs : FS) :
  _load_memory p fs =
  (Ok (match file_get p (files fs) with
       | Some c =>
           if utf8_valid c then match loads c with Some v => v | None => empty_journal end
           else empty_journal
       | None => empty_journal
       end), fs).
Proof.
  unfold _load_memory, bind, path_exists, try_except, read_file, ret, raise.
  cbv beta. destruct (file_get p (files fs)) as [c|] eqn:E; [|reflexivity].
  cbv beta iota. rewrite E. destruct (utf8_valid c); [|reflexivity].
  destruct (loads c); reflexivity.
Qed.

Lemma load_value_spec (p : string) (fs : FS) :
  load_value fs p =
  Ok (match file_get p (files fs) with
      | Some c =>
          if utf8_valid c then match loads c with Some v => v | None => empty_journal end
          else empty_journal
      | None => empty_journal
      end).
Proof. unfold load_value. now rewrite load_spec. Qed.

Lemma load_state (p : string) (fs : FS) (v : json) :
  load_value fs p = Ok v -> _load_memory p fs = (Ok v, fs).
Proof. rewrite load_value_spec, load_spec. intros H; now rewrite H. Qed.

Lemma load_wf (p : string) (fs : FS) (v : json) : load_value fs p = Ok v -> wf v.
Proof.
  rewrite load_value_spec. intros H; inversion H; subst.
  destruct (file_get p (files fs)) as [c|]; [|exact wf_empty_journal].
  destruct (utf8_valid c); [|exact wf_empty_journal].
  destruct (loads c) eqn:E; [exact (loads_wf _ _ E) | exact wf_empty_journal].
Qed.

Lemma load_value_files (p : string) (fs fs' : FS) :
  files fs' = files fs -> load_value fs' p = load_value fs p.
Proof. intros H. rewrite !load_value_spec, H. reflexivity. Qed.

Lemma substring_prefix (n : nat) (s : string) :
  String.prefix (substring 0 n s) s = true.
Proof.
  revert s. induction n as [|n IH]; intros [|c s]; simpl; try reflexivity.
  destruct (ascii_dec c c); [apply IH | congruence].
Qed.

Lemma substring_length (n : nat) (s : string) :
  n <= String.length s -> String.length (substring 0 n s) = n.
Proof.
  revert s. induction n as [|n IH]; intros [|c s]; simpl; intros H; try lia.
  rewrite IH by lia. reflexivity.
Qed.

Lemma prefix_app (a b : string) : String.prefix a (a ++ b) = true.
Proof.
  induction a as [|c a IH]; simpl; [destruct b; reflexivity|].
  destruct (ascii_dec c c); [exact IH | congruence].
Qed.

Lemma substring_split (n : nat) (s : string) : exists r, s = substring 0 n s ++ r.
Proof.
  revert s. induction n as [|n IH]; intros [|c s]; simpl.
  - exists EmptyString; reflexivity.
  - exists (String c s); reflexivity.
  - exists EmptyString; reflexivity.
  - destruct (IH s) as [r Hr]. exists r. rewrite <- Hr. reflexivity.
Qed.

Lemma concat_str_app (a b : list string) :
  concat_str (a ++ b) = concat_str a ++ concat_str b.
Proof.
  induction a as [|x a IH]; simpl; [reflexivity|]. rewrite IH, sapp_assoc. reflexivity.
Qed.

Lemma concat_str_concat (ll : list (list string)) :
  concat_str (concat ll) = concat_str (map concat_str ll).
Proof.
  induction ll as [|l ll IH]; simpl; [reflexivity|]. rewrite concat_str_app, IH. reflexivity.
Qed.

Lemma scalar_text_enc (v : json) (t : string) (lvl : nat) :
  scalar_text v = Some t -> t = iterencode lvl v.
Proof.
  destruct v as [| [] | | | |]; simpl; intros H; inversion H; reflexivity.
Qed.

(** The chunks of [_make_iterencode] make up the text [dumps] gives. *)
Lemma iterchunks_concat (v : json) : forall lvl, concat_str (iterchunks lvl v) = iterencode lvl v.
Proof.
  induction v as [| b | lex | s | l IHl | kvs IHk] using json_ind'; intros lvl;
    try (destruct b); try (simpl; rewrite ?sapp_nil_r; reflexivity).
  - destruct l as [|x xs]; [reflexivity|]. inversion IHl as [|? ? Hx Hxs]; subst.
    cbn [iterchunks iterencode]. rewrite !concat_str_app, concat_str_concat, map_map.
    assert (H1 : concat_str (match scalar_text x with
                  | Some t => ["[" ++ newline_indent (S lvl) ++ t]
                  | None => ("[" ++ newline_indent (S lvl)) :: iterchunks (S lvl) x
                  end) = "[" ++ newline_indent (S lvl) ++ iterencode (S lvl) x).
    { destruct (scalar_text x) eqn:Es; cbn [concat_str fold_right].
      - rewrite sapp_nil_r, <- (scalar_text_enc _ _ (S lvl) Es). reflexivity.
      - change (fold_right String.append EmptyString (iterchunks (S lvl) x))
          with (concat_str (iterchunks (S lvl) x)). rewrite Hx, sapp_assoc. reflexivity. }
    assert (H2 : forall y, In y xs -> concat_str (match scalar_text y with
                  | Some t => ["," ++ newline_indent (S lvl) ++ t]
                  | None => ("," ++ newline_indent (S lvl)) :: iterchunks (S lvl) y
                  end) = "," ++ newline_indent (S lvl) ++ iterencode (S lvl) y).
    { intros y Hy. rewrite Forall_forall in Hxs. destruct (scalar_text y) eqn:Es; cbn [concat_str fold_right].
      - rewrite sapp_nil_r, <- (scalar_text_enc _ _ (S lvl) Es). reflexivity.
      - change (fold_right String.append EmptyString (iterchunks (S lvl) y))
          with (concat_str (iterchunks (S lvl) y)). rewrite (Hxs y Hy), sapp_assoc. reflexivity. }
    rewrite H1, (map_ext_in _ _ xs H2). cbn [concat_str fold_right]. rewrite sapp_nil_r, !sapp_assoc.
    reflexivity.
  - destruct kvs as [|[k x] kvs]; [reflexivity|]. inversion IHk as [|? ? Hx Hxs]; subst.
    cbn [iterchunks iterencode].
    assert (H1 : forall y, (forall lvl, concat_str (iterchunks lvl y) = iterencode lvl y) ->
                 concat_str (match scalar_text y with Some t => [t] | None => iterchunks (S lvl) y end)
                 = iterencode (S lvl) y).
    { intros y Hy. destruct (scalar_text y) eqn:Es; cbn [concat_str fold_right].
      - rewrite sapp_nil_r, <- (scalar_text_enc _ _ (S lvl) Es). reflexivity.
      - apply Hy. }
    assert (H2 : forall kv, In kv kvs -> concat_str (("," ++ newline_indent (S lvl)) :: encode_str (fst kv) :: ": " ::
                   match scalar_text (snd kv) with Some t => [t] | None => iterchunks (S lvl) (snd kv) end)
                 = "," ++ newline_indent (S lvl) ++ encode_str (fst kv) ++ ": " ++ iterencode (S lvl) (snd kv)).
    { intros kv Hkv. rewrite Forall_forall in Hxs. cbn [concat_str fold_right].
      change (fold_right String.append EmptyString
               (match scalar_text (snd kv) with Some t => [t] | None => iterchunks (S lvl) (snd kv) end))
        with (concat_str (match scalar_text (snd kv) with Some t => [t] | None => iterchunks (S lvl) (snd kv) end)).
      rewrite (H1 _ (Hxs kv Hkv)), !sapp_assoc. reflexivity. }
    change (fold_right String.append EmptyString
             (match scalar_text x with Some t => [t] | None => iterchunks (S lvl) x end))
      with (concat_str (match scalar_text x with Some t => [t] | None => iterchunks (S lvl) x end)).
    cbn [concat_str fold_right]. rewrite ?concat_str_app.
    rewrite (H1 x Hx), concat_str_concat, map_map, (map_ext_in _ _ kvs H2). cbn [concat_str fold_right]. rewrite ?sapp_nil_r, ?sapp_assoc.
    reflexivity.
Qed.

Lemma utf8_valid_app_n (n : nat) : forall a b, String.length a <= n ->
  utf8_valid a = true -> utf8_valid (a ++ b) = utf8_valid b.
Proof.
  induction n as [|n IH]; intros [|c a] b Hn Hv; simpl in *; try lia; try reflexivity.
  destruct (nat_of_ascii c <? 128); [apply IH; [lia | exact Hv]|].
  destruct (in_range 194 223 c).
  { destruct a as [|d a]; [discriminate|]. simpl in *.
    apply andb_prop in Hv as [H1 H2]. rewrite H1, IH by (simpl; lia || exact H2). reflexivity. }
  destruct (in_range 224 239 c).
  { destruct a as [|d [|e a]]; try discriminate. simpl in *.
    apply andb_prop in Hv as [H1 H3]. apply andb_prop in H1 as [H1 H2].
    rewrite H1, H2, IH by (simpl; lia || exact H3). reflexivity. }
  destruct (in_range 240 244 c); [|discriminate].
  destruct a as [|d [|e [|f a]]]; try discriminate. simpl in *.
  apply andb_prop in Hv as [H1 H4]. apply andb_prop in H1 as [H1 H3].
  apply andb_prop in H1 as [H1 H2].
  rewrite H1, H2, H3, IH by (simpl; lia || exact H4). reflexivity.
Qed.

Lemma utf8_valid_app (a b : string) :
  utf8_valid a = true -> utf8_valid (a ++ b) = utf8_valid b.
Proof. apply (utf8_valid_app_n (String.length a)). lia. Qed.

Lemma forallb_valid_concat (cs : list string) :
  forallb utf8_valid cs = true -> utf8_valid (concat_str cs) = true.
Proof.
  induction cs as [|c cs IH]; simpl; [reflexivity|].
  intros H. apply andb_prop in H as [H1 H2]. rewrite utf8_valid_app by exact H1. exact (IH H2).
Qed.

Lemma enc_chunks_ok (cs : list string) (pre : string) :
  enc_chunks cs = (pre, false) -> pre = concat_str cs /\ forallb utf8_valid cs = true.
Proof.
  revert pre. induction cs as [|c cs IH]; simpl; intros pre H.
  - inversion H. split; reflexivity.
  - destruct (utf8_valid c); [|discriminate].
    destruct (enc_chunks cs) as [q bad] eqn:E. inversion H; subst.
    destruct (IH q eq_refl) as [-> ->]. split; reflexivity.
Qed.

Lemma enc_chunks_bad (cs : list string) (pre : string) :
  enc_chunks cs = (pre, true) ->
  forallb utf8_valid cs = false /\
  exists r, concat_str cs = pre ++ r /\ 0 < String.length r.
Proof.
  revert pre. induction cs as [|c cs IH]; simpl; intros pre H; [discriminate|].
  destruct (utf8_valid c) eqn:Ev.
  - destruct (enc_chunks cs) as [q bad] eqn:E. inversion H; subst.
    destruct (IH q eq_refl) as [Hf [r [Hr Hl]]]. split; [exact Hf|].
    exists r. rewrite Hr, sapp_assoc. split; [reflexivity | exact Hl].
  - inversion H; subst. split; [reflexivity|].
    exists (concat_str (c :: cs)). split; [reflexivity|]. simpl.
    rewrite slength_app. destruct c; [discriminate | simpl; lia].
Qed.

Lemma blocks_0 : blocks 0 = 0.
Proof. reflexivity. Qed.

Lemma blocks_over (n k : nat) : k < blocks n -> k * block_size < n.
Proof.
  unfold blocks. intros H. destruct (Nat.le_gt_cases n (k * block_size)) as [Hle|]; [|assumption].
  exfalso. assert (Hb : block_size <> 0) by (unfold block_size; discriminate).
  assert ((n + block_size - 1) / block_size < S k); [|lia].
  apply Nat.Div0.div_lt_upper_bound. nia.
Qed.

(** [json.dump] into a file opened with [open("w")]: on success the file
    holds the dump, whose chunks are all valid UTF-8. *)
Lemma dump_to_ok (p : string) (v : json) (fs fs' : FS) :
  dump_to p v fs = (Ok tt, fs') ->
  file_get p (files fs') = Some (dumps v) /\
  (forall q, q <> p -> file_get q (files fs') = file_get q (files fs)).
Proof.
  unfold dump_to, bind, open_w, ret, raise.
  destruct (mem_dir fs); [|discriminate]. cbv beta iota zeta.
  destruct (enc_chunks (iterchunks 0 v)) as [pre bad] eqn:Ee.
  unfold write_file. cbn [files free mem_dir].
  rewrite (dict_get_set_same p EmptyString (files fs) : file_get p _ = _).
  destruct (_ <=? _); [|discriminate]. destruct bad; [discriminate|].
  apply enc_chunks_ok in Ee as [Hpre _]. rewrite iterchunks_concat in Hpre. subst pre.
  intros H; inversion H; subst; simpl.
  split; [apply dict_get_set_same|].
  intros q Hq. unfold file_get. rewrite !dict_get_set_other by exact Hq. reflexivity.
Qed.

Lemma dump_to_valid (p : string) (v : json) (fs fs' : FS) :
  dump_to p v fs = (Ok tt, fs') -> forallb utf8_valid (iterchunks 0 v) = true.
Proof.
  unfold dump_to, bind, open_w, ret, raise.
  destruct (mem_dir fs); [|discriminate]. cbv beta iota zeta.
  destruct (enc_chunks (iterchunks 0 v)) as [pre bad] eqn:Ee.
  unfold write_file. destruct (_ <=? _); [|discriminate]. destruct bad; [discriminate|].
  intros _. exact (proj2 (enc_chunks_ok _ _ Ee)).
Qed.

Lemma dump_to_load (p : string) (v : json) (fs fs' : FS) :
  wf v -> dump_to p v fs = (Ok tt, fs') -> load_value fs' p = Ok v.
Proof.
  intros Hw H. assert (Hv := forallb_valid_concat _ (dump_to_valid _ _ _ _ H)).
  rewrite iterchunks_concat in Hv. change (iterencode 0 v) with (dumps v) in Hv.
  apply dump_to_ok in H as [H _].
  rewrite load_value_spec, H, Hv, loads_dumps by exact Hw. reflexivity.
Qed.

(** A failed dump: without the directory nothing changes; otherwise the
    file is left holding a proper prefix of the dump, cut where the disk
    ran out of blocks ([ENOSPC]) or before the first chunk holding a lone
    surrogate ([UnicodeEncodeError]). *)
Lemma dump_to_err (p : string) (v : json) (fs fs' : FS) (e : exc) :
  dump_to p v fs = (Err e, fs') ->
  (e = FileNotFoundError /\ mem_dir fs = false /\ fs' = fs) \/
  ((e = NoSpaceError \/ (e = UnicodeEncodeError /\ forallb utf8_valid (iterchunks 0 v) = false)) /\
   exists pre, file_get p (files fs') = Some pre /\
     String.prefix pre (dumps v) = true /\ String.length pre < String.length (dumps v)).
Proof.
  unfold dump_to, bind, open_w, ret, raise.
  destruct (mem_dir fs) eqn:Ed; [|intros H; inversion H; auto]. cbv beta iota zeta.
  destruct (enc_chunks (iterchunks 0 v)) as [pre bad] eqn:Ee.
  assert (Hpre : exists r, dumps v = pre ++ r /\ (bad = true -> 0 < String.length r)).
  { unfold dumps. rewrite <- iterchunks_concat. destruct bad.
    - destruct (enc_chunks_bad _ _ Ee) as [_ [r [Hr Hl]]]. exists r. auto.
    - destruct (enc_chunks_ok _ _ Ee) as [Hr _]. exists EmptyString.
      rewrite sapp_nil_r. split; [symmetry; exact Hr | discriminate]. }
  destruct Hpre as [r [Hr Hlen]].
  unfold write_file. cbn [files free mem_dir].
  rewrite (dict_get_set_same p EmptyString (files fs) : file_get p _ = _).
  change (EmptyString ++ pre) with pre. change (String.length EmptyString) with 0.
  rewrite blocks_0. cbn [Nat.add].
  destruct (blocks (String.length pre) <=? _) eqn:Hle.
  - destruct bad; [|discriminate]. intros H; inversion H; subst. right.
    split; [right; split; [reflexivity | exact (proj1 (enc_chunks_bad _ _ Ee))]|].
    exists pre. cbn [files]. unfold file_get. rewrite dict_get_set_same.
    split; [reflexivity|]. rewrite Hr, prefix_app, slength_app.
    specialize (Hlen eq_refl). split; [reflexivity | lia].
  - intros H; inversion H; subst. right. split; [left; reflexivity|].
    apply Nat.leb_gt, blocks_over in Hle. revert Hle.
    generalize ((free fs + blocks (match file_get p (files fs) with
                                   | Some c => String.length c | None => 0 end)) * block_size).
    intros k Hk. exists (substring 0 k pre).
    cbn [files]. unfold file_get. rewrite dict_get_set_same. split; [reflexivity|].
    destruct (substring_split k pre) as [r' Hr'].
    assert (Hq : String.length (substring 0 k pre) = k) by (apply substring_length; lia).
    revert Hq. rewrite Hr. set (q := substring 0 k pre) in *. intros Hq.
    rewrite Hr', sapp_assoc, prefix_app. split; [reflexivity|].
    rewrite !slength_app in *. rewrite Hr' in Hk. rewrite slength_app in Hk. lia.
Qed.

(* ------------------------------------------------------------------ *)
(** ** One store operation on a readable journal *)

Lemma append_cli_unfold (p ts role text : string) (mid : option string) (fs : FS)
    (kvs : list (string * json)) (m : list json) :
  load_value fs p = Ok (JObj kvs) -> sget "messages" kvs = Some (JArr m) ->
  _append_memory p ts role text mid fs =
  dump_to p (JObj (sset "messages" (JArr (m ++ [mk_entry ts role text mid])%list) kvs)) fs.
Proof.
  intros Hl Hm. unfold _append_memory, bind. rewrite (load_state _ _ _ Hl).
  cbv beta iota. unfold setdefault_messages. rewrite Hm. cbn [lift ret].
  unfold append_message, py_getitem. rewrite Hm. cbn [lift ret py_setitem].
  reflexivity.
Qed.

Lemma append_st_unfold (p ts role text : string) (mid : option string) (fs : FS)
    (kvs : list (string * json)) (m : list json) :
  load_value fs p = Ok (JObj kvs) -> sget "messages" kvs = Some (JArr m) ->
  _append_memory_st p ts role text mid fs =
  dump_to p (JObj (sset "messages" (JArr (lastn 20 (m ++ [mk_entry ts role text mid])%list))
                        kvs)) fs.
Proof.
  intros Hl Hm. unfold _append_memory_st, bind. rewrite (load_state _ _ _ Hl).
  cbv beta iota. unfold setdefault_messages. rewrite Hm. cbn [lift ret].
  unfold append_message, py_getitem. rewrite Hm. cbn [lift ret py_setitem].
  unfold trim_messages, py_getitem. rewrite sget_sset_same. cbn [lift ret py_setitem].
  rewrite sset_sset_same. reflexivity.
Qed.


Lemma wf_appended (kvs : list (string * json)) (m l : list json) :
  wf (JObj kvs) -> sget "messages" kvs = Some (JArr m) -> Forall wf l ->
  wf (JObj (sset "messages" (JArr l) kvs)).
Proof.
  intros Hw Hm Hl. apply sset_wf; [exact Hw | now apply wf_arr].
Qed.

Lemma wf_msgs (kvs : list (string * json)) (m : list json) :
  wf (JObj kvs) -> sget "messages" kvs = Some (JArr m) -> Forall wf m.
Proof. intros Hw Hm. apply wf_arr. exact (wf_sget _ _ _ Hw Hm). Qed.

Lemma lastn_all {A} (n : nat) (l : list A) : length l <= n -> lastn n l = l.
Proof. unfold lastn. intros H. replace (length l - n) with 0 by lia. reflexivity. Qed.

Lemma lastn_app_long {A} (n : nat) (a c : list A) :
  n <= length c -> lastn n (a ++ c)%list = lastn n c.
Proof.
  unfold lastn. intros H. rewrite length_app, skipn_app.
  rewrite skipn_all2 by lia.
  replace (length a + length c - n - length a) with (length c - n) by lia. reflexivity.
Qed.

Lemma lastn_app_lastn {A} (n : nat) (l r : list A) :
  lastn n (lastn n l ++ r)%list = lastn n (l ++ r)%list.
Proof.
  destruct (Nat.le_gt_cases (length l) n) as [Hle|Hgt].
  - now rewrite (lastn_all n l Hle).
  - rewrite <- (firstn_skipn (length l - n) l) at 2.
    rewrite <- app_assoc.
    rewrite (lastn_app_long n (firstn (length l - n) l) (skipn (length l - n) l ++ r));
      [reflexivity|].
    rewrite length_app, length_skipn. lia.
Qed.

Lemma lastn_length {A} (n : nat) (l : list A) : length (lastn n l) = Nat.min (length l) n.
Proof. unfold lastn. rewrite length_skipn. lia. Qed.


Lemma wf_snoc (m : list json) (ts role text : string) (mid : option string) :
  Forall wf m -> Forall wf (m ++ [mk_entry ts role text mid])%list.
Proof.
  intros H. apply Forall_app. split; [exact H|]. constructor; [apply wf_mk_entry | constructor].
Qed.

Lemma run_appends_st (p : string) (cs : list append_call) :
  forall fs fs' kvs m, cs <> [] ->
  load_value fs p = Ok (JObj kvs) -> sget "messages" kvs = Some (JArr m) ->
  run_appends _append_memory_st p cs fs = (Ok tt, fs') ->
  load_value fs' p =
  Ok (JObj (sset "messages" (JArr (lastn 20 (m ++ map call_entry cs)%list)) kvs)).
Proof.
  induction cs as [|c cs IH]; intros fs fs' kvs m Hne Hl Hm H; [congruence|].
  simpl in H. unfold bind in H.
  rewrite (append_st_unfold _ _ _ _ _ _ kvs m Hl Hm) in H.
  destruct (dump_to _ _ fs) as [[[]|e] fs1] eqn:Ed; [|discriminate].
  pose proof (load_wf _ _ _ Hl) as Hw.
  assert (Hf : Forall wf (lastn 20 (m ++ [call_entry c])%list)).
  { apply Forall_lastn, wf_snoc, (wf_msgs _ _ Hw Hm). }
  assert (Hl1 := dump_to_load _ _ _ _ (wf_appended kvs m _ Hw Hm Hf) Ed).
  destruct cs as [|c' cs'].
  - simpl in H. inversion H; subst. exact Hl1.
  - rewrite (IH fs1 fs' _ _ ltac:(discriminate) Hl1 (sget_sset_same _ _ _) H).
    rewrite sset_sset_same, lastn_app_lastn, <- app_assoc. reflexivity.
Qed.

Lemma cli_turn_journal (p u : string) (env : turn_env) (fs fs' : FS) (out : list string)
    (kvs : list (string * json)) (m : list json) :
  load_value fs p = Ok (JObj kvs) -> sget "messages" kvs = Some (JArr m) ->
  latest_assistant (e_msgs env) <> EmptyString ->
  cli_turn p env u fs = (Ok out, fs') ->
  load_value fs' p =
  Ok (JObj (sset "messages"
    (JArr (m ++ [mk_entry (e_ts_user env) "user" u (Some (e_user_msg_id env));
                 mk_entry (e_ts_assistant env) "assistant" (latest_assistant (e_msgs env))
                          (latest_assistant_id (e_msgs env))])%list) kvs)).
Proof.
  intros Hl Hm Hne H. unfold cli_turn, bind in H.
  rewrite (append_cli_unfold _ _ _ _ _ _ kvs m Hl Hm) in H.
  destruct (dump_to _ _ fs) as [[[]|e] fs1] eqn:Ed; [|discriminate].
  pose proof (load_wf _ _ _ Hl) as Hw.
  assert (Hl1 := dump_to_load _ _ _ _
                   (wf_appended kvs m _ Hw Hm (wf_snoc _ _ _ _ _ (wf_msgs _ _ Hw Hm))) Ed).
  cbv beta iota zeta in H.
  apply String.eqb_neq in Hne. rewrite Hne in H. cbn [negb] in H.
  rewrite (append_cli_unfold _ _ _ _ _ _ _ _ Hl1 (sget_sset_same _ _ _)) in H.
  destruct (dump_to _ _ fs1) as [[[]|e] fs2] eqn:Ed2; [|discriminate].
  unfold ret in H. inversion H; subst.
  pose proof (load_wf _ _ _ Hl1) as Hw1.
  rewrite (dump_to_load _ _ _ _
             (wf_appended _ _ _ Hw1 (sget_sset_same _ _ _)
                (wf_snoc _ _ _ _ _ (wf_snoc _ _ _ _ _ (wf_msgs _ _ Hw Hm)))) Ed2).
  rewrite sset_sset_same, <- app_assoc. reflexivity.
Qed.

(* ------------------------------------------------------------------ *)
(** ** Read-only computations *)

Lemma keeps_bind {A B} (m : M A) (k : A -> M B) :
  keeps_state m -> (forall a, keeps_state (k a)) -> keeps_state (bind m k).
Proof.
  intros Hm Hk fs. unfold bind. specialize (Hm fs).
  destruct (m fs) as [[a|e] fs']; simpl in *; subst; [apply Hk | reflexivity].
Qed.

Lemma keeps_ret {A} (a : A) : keeps_state (ret a).
Proof. intros fs; reflexivity. Qed.

Lemma keeps_lift {A} (r : res A) : keeps_state (lift r).
Proof. intros fs; destruct r; reflexivity. Qed.

Lemma keeps_load (p : string) : keeps_state (_load_memory p).
Proof. intros fs. rewrite load_spec. reflexivity. Qed.

Lemma keeps_scan_threads (names : list string) :
  forall threads, keeps_state (scan_threads names threads).
Proof.
  induction names as [|name names IH]; intros threads; simpl; [apply keeps_ret|].
  apply keeps_bind; [apply keeps_load | intros v].
  apply keeps_bind; [apply keeps_lift | intros tid].
  destruct (truthy tid); [|apply IH].
  apply keeps_bind; [apply keeps_lift | intros msgs].
  destruct (truthy msgs); [|apply IH].
  apply keeps_bind; [apply keeps_lift | intros items].
  apply keeps_bind; [apply keeps_lift | intros label].
  apply keeps_bind; [apply keeps_lift | intros th'].
  apply IH.
Qed.

Lemma get_all_threads_state (fs : FS) :
  snd (get_all_threads fs) = mkFS true (files fs) (free fs).
Proof.
  unfold get_all_threads, bind, mkdir_memory. cbv beta iota.
  apply keeps_scan_threads.
Qed.

(* ------------------------------------------------------------------ *)
(** ** The listing of the Streamlit page *)

Lemma load_never_fails (p : string) (fs : FS) : exists v, load_value fs p = Ok v.
Proof. rewrite load_value_spec. eexists; reflexivity. Qed.

Lemma first_user_text_ok (l : list json) :
  forallb entry_ok l = true -> first_user_text l = Ok (label_of l).
Proof.
  induction l as [|a l IH]; intros H; [reflexivity|].
  simpl in H. apply andb_prop in H as [Ha Hl].
  destruct a as [| | | | |kvs]; try discriminate.
  unfold entry_ok in Ha.
  destruct (sget "ts" kvs) as [[]|]; try discriminate.
  destruct (sget "text" kvs) as [[| | | t | |]|] eqn:Et; try discriminate.
  destruct (sget "message_id" kvs) as [[]|]; try discriminate;
  destruct (sget "role" kvs) as [[| | | r | |]|] eqn:Er; try discriminate;
  cbn [is_str str_or_null andb] in Ha;
  apply orb_prop in Ha as [Hr|Hr]; apply String.eqb_eq in Hr; subst r;
  unfold label_of; simpl; rewrite Er; simpl; try rewrite Et; try reflexivity;
  rewrite (IH Hl); reflexivity.
Qed.

Lemma scan_threads_ok (fs : FS) (names : list string) :
  forall threads,
  (forall name v, In name names -> load_value fs name = Ok v -> journal_ok v = true) ->
  scan_threads names threads fs =
  (Ok (fold_left scan_step
         (flat_map (fun name => match load_value fs name with Ok v => listed v | Err _ => [] end) names)
         threads), fs).
Proof.
  induction names as [|name names IH]; intros threads Hj; [reflexivity|].
  destruct (load_never_fails name fs) as [v Ev].
  assert (Hv : journal_ok v = true) by (apply (Hj name); [left; reflexivity | exact Ev]).
  assert (Hr : forall name' v', In name' names -> load_value fs name' = Ok v' -> journal_ok v' = true)
    by (intros; apply (Hj name'); [right|]; assumption).
  cbn [scan_threads flat_map]. rewrite Ev, fold_left_app.
  unfold bind. rewrite (load_state _ _ _ Ev).
  destruct v as [| | | | |kvs]; try discriminate.
  unfold journal_ok in Hv. apply andb_prop in Hv as [Ht Hm].
  unfold lift, py_get, ret. cbv beta iota.
  destruct (sget "thread_id" kvs) as [[| | | t | |]|] eqn:Et; try discriminate;
  destruct (sget "messages" kvs) as [[| | | | l |]|] eqn:Em; try discriminate;
  simpl listed; rewrite ?Et, ?Em; cbn [truthy negb];
  try (rewrite (IH _ Hr); reflexivity).
  destruct l as [|m ms]; destruct (String.eqb t EmptyString) eqn:E0; cbn [negb];
  try (rewrite (IH _ Hr); reflexivity).
  unfold py_iter. cbv beta iota.
  rewrite (first_user_text_ok _ Hm). unfold hash_set. cbv beta iota.
  rewrite (IH _ Hr). reflexivity.
Qed.

Lemma listed_of_files (fs fs' : FS) : files fs' = files fs -> listed_of fs' = listed_of fs.
Proof.
  intros H. unfold listed_of, journal_names. rewrite H.
  apply flat_map_ext. intros name. rewrite (load_value_files name fs fs' H). reflexivity.
Qed.

Lemma get_all_threads_ok (fs : FS) :
  (forall name v, In name (journal_names fs) -> load_value fs name = Ok v -> journal_ok v = true) ->
  get_all_threads fs = (Ok (threads_of (listed_of fs)), mkFS true (files fs) (free fs)).
Proof.
  intros Hj. unfold get_all_threads, bind, mkdir_memory. cbv beta iota.
  set (fs1 := mkFS true (files fs) (free fs)).
  assert (Hf : files fs1 = files fs) by reflexivity.
  rewrite scan_threads_ok.
  - rewrite <- (listed_of_files fs fs1 Hf). reflexivity.
  - intros name v Hin Hv. apply (Hj name v); [exact Hin|].
    rewrite <- (load_value_files name fs fs1 Hf). exact Hv.
Qed.

Lemma dict_set_absent {K V} (eqk : K -> K -> bool) (k : K) (v : V) (d : list (K * V)) :
  dict_get eqk k d = None -> dict_set eqk k v d = (d ++ [(k, v)])%list.
Proof.
  induction d as [|[k' v'] d IH]; simpl; [reflexivity|].
  destruct (eqk k' k); [discriminate|]. intros H. rewrite (IH H). reflexivity.
Qed.

Lemma dict_get_app {K V} (eqk : K -> K -> bool) (k : K) (d1 d2 : list (K * V)) :
  dict_get eqk k (d1 ++ d2)%list =
  match dict_get eqk k d1 with Some v => Some v | None => dict_get eqk k d2 end.
Proof.
  induction d1 as [|[k' v'] d1 IH]; simpl; [reflexivity|].
  destruct (eqk k' k); [reflexivity | exact IH].
Qed.

Lemma fold_scan_distinct (l : list (string * json)) :
  forall d, NoDup (map fst l) ->
  Forall (fun tl => dict_get key_eqb (JStr (fst tl)) d = None) l ->
  fold_left scan_step l d = (d ++ map (fun tl => (JStr (fst tl), snd tl)) l)%list.
Proof.
  induction l as [|[t x] l IH]; intros d Hn Hf; simpl; [now rewrite app_nil_r|].
  inversion Hn as [|? ? Hni Hn']; subst. inversion Hf as [|? ? Hd Hf']; subst.
  unfold scan_step at 2. simpl fst; simpl snd.
  rewrite (dict_set_absent _ _ _ _ Hd), IH, <- app_assoc; [reflexivity | exact Hn'|].
  apply Forall_forall. intros [t' x'] Hin. simpl.
  rewrite dict_get_app. rewrite Forall_forall in Hf'.
  specialize (Hf' _ Hin). simpl in Hf'. rewrite Hf'. simpl.
  destruct (String.eqb t t') eqn:E; [|reflexivity].
  apply String.eqb_eq in E; subst t'. exfalso. apply Hni.
  apply (in_map fst _ _ Hin).
Qed.

(* ------------------------------------------------------------------ *)
(** ** Deleting a thread *)

Lemma delete_thread_spec (s : Session) (tid : string) (fs : FS) :
  delete_thread s tid fs =
  match file_get (thread_path tid) (files fs) with
  | Some c => (Ok (if opt_eqb (s_thread_id s) (Some tid) then start_new_chat s else s),
               mkFS true (file_remove (thread_path tid) (files fs)) (free fs + blocks (String.length c)))
  | None => (Ok (if opt_eqb (s_thread_id s) (Some tid) then start_new_chat s else s),
              mkFS true (files fs) (free fs))
  end.
Proof.
  unfold delete_thread, _memory_path_for_thread, bind, mkdir_memory, ret, try_except,
    path_exists, unlink. cbv beta iota zeta. simpl mem_dir; simpl files; simpl free.
  change ("conversation_" ++ tid ++ ".json") with (thread_path tid).
  destruct (file_get (thread_path tid) (files fs)) as [c|] eqn:E; cbv beta iota;
  cbn [files mem_dir free]; rewrite E; cbv beta iota; cbn [files mem_dir free];
  try rewrite E; reflexivity.
Qed.

(* ------------------------------------------------------------------ *)
(** ** Sequences of read-only calls *)

Lemma run_reads_state (cs : list read_call) :
  forall fs, files (snd (run_reads cs fs)) = files fs /\ free (snd (run_reads cs fs)) = free fs.
Proof.
  induction cs as [|[p|] cs IH]; intros fs; simpl; [split; reflexivity| |].
  - unfold bind. rewrite load_spec. apply IH.
  - unfold bind. pose proof (get_all_threads_state fs) as Hg.
    destruct (get_all_threads fs) as [[r|e] fs1]; simpl in Hg; subst fs1;
    [exact (IH _) | split; reflexivity].
Qed.

(* ================================================================== *)
(** * The claims *)

(** ** C1 *)



(** ** C2 *)




(** ** C3 *)

(** C3: with the Streamlit append (limit 20), a non-empty sequence of
    successful appends on a readable journal leaves the last 20 entries of
    the old messages followed by the appended ones, so at most 20 entries;
    after 20 or more appends they are exactly the entries of the last 20
    appends, in append order. *)
Theorem C3_trim_last20 (p : string) (cs : list append_call) (fs fs' : FS)
    (kvs : list (string * json)) (m0 : list json) :
  load_value fs p = Ok (JObj kvs) -> sget "messages" kvs = Some (JArr m0) -> cs <> [] ->
  run_appends _append_memory_st p cs fs = (Ok tt, fs') ->
  load_value fs' p =
    Ok (JObj (sset "messages" (JArr (lastn 20 (m0 ++ map call_entry cs)%list)) kvs)) /\
  length (lastn 20 (m0 ++ map call_entry cs)%list) <= 20 /\
  (20 <= length cs -> lastn 20 (m0 ++ map call_entry cs)%list = map call_entry (lastn 20 cs)).
Proof.
  intros Hl Hm Hne H. split; [|split].
  - exact (run_appends_st p cs fs fs' kvs m0 Hne Hl Hm H).
  - rewrite lastn_length. lia.
  - intros H20. rewrite lastn_app_long by (rewrite length_map; exact H20).
    unfold lastn. rewrite length_map, skipn_map. reflexivity.
Qed.

Lemma C3_witness :
  load_value (snd (run_appends _append_memory_st "conversation_t.json"
                     (mkCall "T0" "user" "first" (Some "m0") :: repeat (mkCall "T" "user" "x" None) 20)
                     (mkFS true [] 5000))) "conversation_t.json" =
    Ok (JObj (sset "messages"
                (JArr (lastn 20 ([] ++ map call_entry
                   (mkCall "T0" "user" "first" (Some "m0") :: repeat (mkCall "T" "user" "x" None) 20))%list))
                [("thread_id", JNull); ("messages", JArr [])])) /\
  length (lastn 20 ([] ++ map call_entry
            (mkCall "T0" "user" "first" (Some "m0") :: repeat (mkCall "T" "user" "x" None) 20))%list) <= 20 /\
  (20 <= 21 ->
   lastn 20 ([] ++ map call_entry
      (mkCall "T0" "user" "first" (Some "m0") :: repeat (mkCall "T" "user" "x" None) 20))%list =
   map call_entry (lastn 20
      (mkCall "T0" "user" "first" (Some "m0") :: repeat (mkCall "T" "user" "x" None) 20))).
Proof.
  apply (C3_trim_last20 "conversation_t.json"
           (mkCall "T0" "user" "first" (Some "m0") :: repeat (mkCall "T" "user" "x" None) 20)
           (mkFS true [] 5000) _ [("thread_id", JNull); ("messages", JArr [])] []);
    [vm_compute; reflexivity | reflexivity | discriminate | vm_compute; reflexivity].
Defined.

(** ** C4 *)

(** C4, counterexample: appending to a journal whose stored message
    holds a lone surrogate (read from the escape [\ud800]) truncates the
    file, then [json.dump] raises [UnicodeEncodeError] at the chunk of that
    text: the file is left half-written, and a later load finds the empty
    journal instead of the journal that was there before. *)
Lemma C4_counterexample :
  load_value (mkFS true [("conversation_t.json", escaped_surrogate_journal (JStr "t"))] 100) "conversation_t.json" = Ok (JObj [("thread_id", JStr "t"); ("messages", JArr [mk_entry "T1" "user" (utf8_encode 55296) (Some "m1")])]) /\
  fst (_append_memory "conversation_t.json" "T2" "assistant" "Hi there" (Some "m2") (mkFS true [("conversation_t.json", escaped_surrogate_journal (JStr "t"))] 100)) =
    Err UnicodeEncodeError /\
  load_value (snd (_append_memory "conversation_t.json" "T2" "assistant" "Hi there" (Some "m2")
                     (mkFS true [("conversation_t.json", escaped_surrogate_journal (JStr "t"))] 100)))
             "conversation_t.json" = Ok empty_journal.
Proof. split; [|split]; vm_compute; reflexivity. Qed.

(** C4, amended: both appends write the journal in place, truncating
    the file first.  When an append on a readable journal fails, either the
    [memory] directory is missing and nothing changed, or the file holds a
    proper prefix of the new journal text, not the previous content: the
    disk ran out of blocks, or a chunk of the text holds a lone surrogate
    that the [utf-8] file cannot encode. *)
Theorem C4_append_failure (p ts role text : string) (mid : option string) (fs : FS)
    (kvs : list (string * json)) (m : list json) :
  load_value fs p = Ok (JObj kvs) -> sget "messages" kvs = Some (JArr m) ->
  (forall e fs', _append_memory p ts role text mid fs = (Err e, fs') ->
     (e = FileNotFoundError /\ fs' = fs) \/
     ((e = NoSpaceError \/
       (e = UnicodeEncodeError /\
        forallb utf8_valid (iterchunks 0 (JObj (sset "messages" (JArr (m ++ [mk_entry ts role text mid])%list) kvs))) = false)) /\
      exists pre, file_get p (files fs') = Some pre /\
        String.prefix pre (dumps (JObj (sset "messages" (JArr (m ++ [mk_entry ts role text mid])%list) kvs))) = true /\
        String.length pre < String.length (dumps (JObj (sset "messages" (JArr (m ++ [mk_entry ts role text mid])%list) kvs))))) /\
  (forall e fs', _append_memory_st p ts role text mid fs = (Err e, fs') ->
     (e = FileNotFoundError /\ fs' = fs) \/
     ((e = NoSpaceError \/
       (e = UnicodeEncodeError /\
        forallb utf8_valid (iterchunks 0 (JObj (sset "messages" (JArr (lastn 20 (m ++ [mk_entry ts role text mid])%list)) kvs))) = false)) /\
      exists pre, file_get p (files fs') = Some pre /\
        String.prefix pre (dumps (JObj (sset "messages" (JArr (lastn 20 (m ++ [mk_entry ts role text mid])%list)) kvs))) = true /\
        String.length pre < String.length (dumps (JObj (sset "messages" (JArr (lastn 20 (m ++ [mk_entry ts role text mid])%list)) kvs))))).
Proof.
  intros Hl Hm. split; intros e fs' H.
  - rewrite (append_cli_unfold _ _ _ _ _ _ kvs m Hl Hm) in H.
    destruct (dump_to_err _ _ _ _ _ H) as [[He [_ Hf]]|Hr]; [left; split; assumption | right; exact Hr].
  - rewrite (append_st_unfold _ _ _ _ _ _ kvs m Hl Hm) in H.
    destruct (dump_to_err _ _ _ _ _ H) as [[He [_ Hf]]|Hr]; [left; split; assumption | right; exact Hr].
Qed.

Lemma C4_witness :
  exists pre,
    file_get "conversation_t.json"
      (files (snd (_append_memory "conversation_t.json" "T2" "assistant" "Hi there" (Some "m2")
                     (mkFS true [("conversation_t.json", escaped_surrogate_journal (JStr "t"))] 100)))) = Some pre /\
    String.length pre <
      String.length (dumps (JObj (sset "messages"
        (JArr ([mk_entry "T1" "user" (utf8_encode 55296) (Some "m1")] ++
               [mk_entry "T2" "assistant" "Hi there" (Some "m2")])%list)
        [("thread_id", JStr "t");
         ("messages", JArr [mk_entry "T1" "user" (utf8_encode 55296) (Some "m1")])]))).
Proof.
  destruct (proj1 (C4_append_failure "conversation_t.json" "T2" "assistant" "Hi there" (Some "m2")
           (mkFS true [("conversation_t.json", escaped_surrogate_journal (JStr "t"))] 100)
           [("thread_id", JStr "t");
            ("messages", JArr [mk_entry "T1" "user" (utf8_encode 55296) (Some "m1")])]
           [mk_entry "T1" "user" (utf8_encode 55296) (Some "m1")]
           ltac:(vm_compute; reflexivity) ltac:(vm_compute; reflexivity))
           UnicodeEncodeError
           (snd (_append_memory "conversation_t.json" "T2" "assistant" "Hi there" (Some "m2")
                   (mkFS true [("conversation_t.json", escaped_surrogate_journal (JStr "t"))] 100)))
           ltac:(vm_compute; reflexivity))
    as [[He _] | [_ [pre [H1 [_ H3]]]]]; [discriminate He|].
  exists pre. split; [exact H1 | exact H3].
Defined.

(** ** C5 *)

(** C5 (terminal client): when the run of a turn reports [failed] and the
    thread already holds an assistant message with text, the turn of
    [client_python.py] appends the user entry and then an assistant entry
    carrying the text of that newest assistant message (a reply from an
    earlier turn), so the journal does not end with the user entry. *)
Theorem C5_failed_turn_appends_assistant (p u : string) (env : turn_env) (fs fs' : FS)
    (out : list string) (kvs : list (string * json)) (m : list json) :
  load_value fs p = Ok (JObj kvs) -> sget "messages" kvs = Some (JArr m) ->
  e_run_status env = "failed" ->
  latest_assistant (e_msgs env) <> EmptyString ->
  cli_turn p env u fs = (Ok out, fs') ->
  load_value fs' p =
  Ok (JObj (sset "messages"
    (JArr (m ++ [mk_entry (e_ts_user env) "user" u (Some (e_user_msg_id env));
                 mk_entry (e_ts_assistant env) "assistant" (latest_assistant (e_msgs env))
                          (latest_assistant_id (e_msgs env))])%list) kvs)) /\
  In ("Run failed: " ++ e_run_error env) out.
Proof.
  intros Hl Hm Hf Hne H. split; [exact (cli_turn_journal p u env fs fs' out kvs m Hl Hm Hne H)|].
  unfold cli_turn, bind in H.
  rewrite (append_cli_unfold _ _ _ _ _ _ kvs m Hl Hm) in H.
  destruct (dump_to _ _ fs) as [[[]|e] fs1] eqn:Ed; [|discriminate].
  cbv beta iota zeta in H. rewrite Hf in H.
  apply String.eqb_neq in Hne. rewrite Hne in H. cbn [negb] in H.
  unfold bind in H.
  destruct (_append_memory _ _ _ _ _ fs1) as [[[]|e] fs2]; [|discriminate].
  unfold ret in H. inversion H; subst. simpl. right; right; left; reflexivity.
Qed.

Lemma C5_witness :
  load_value (snd (cli_turn "conversation_t.json"
                     (mkEnv "t" "m3" "r2" "failed" "boom"
                        [mkRMsg "user" "m3" ["Second question"];
                         mkRMsg "assistant" "m2" ["Old reply"];
                         mkRMsg "user" "m1" ["Hello"]] "T3" "T4")
                     "Second question" (mkFS true [] 3000)))
             "conversation_t.json" =
  Ok (JObj (sset "messages"
    (JArr ([] ++ [mk_entry "T3" "user" "Second question" (Some "m3");
                  mk_entry "T4" "assistant" "Old reply" (Some "m2")])%list)
    [("thread_id", JNull); ("messages", JArr [])])) /\
  In ("Run failed: " ++ "boom")
     ["Run ID: r2"; "Run completed with status: failed"; "Run failed: boom";
      "ASSISTANT: Old reply"].
Proof.
  apply (C5_failed_turn_appends_assistant "conversation_t.json" "Second question"
           (mkEnv "t" "m3" "r2" "failed" "boom"
              [mkRMsg "user" "m3" ["Second question"];
               mkRMsg "assistant" "m2" ["Old reply"];
               mkRMsg "user" "m1" ["Hello"]] "T3" "T4")
           (mkFS true [] 3000) _ _ [("thread_id", JNull); ("messages", JArr [])] []);
    [vm_compute; reflexivity | reflexivity | reflexivity | discriminate | vm_compute; reflexivity].
Defined.

(** ** C6 *)

(** C6, counterexample: two journal files that carry the same thread id
    are both journals the spec lists, but [get_all_threads] keys its
    result by thread id and returns one entry for them, labelled by the
    file read last. *)
Lemma C6_counterexample :
  length (listed_of
    (mkFS true
       [("conversation_a.json",
         dumps (JObj [("thread_id", JStr "t");
                      ("messages", JArr [mk_entry "T1" "user" "Hello a" (Some "m1")])]));
        ("conversation_b.json",
         dumps (JObj [("thread_id", JStr "t");
                      ("messages", JArr [mk_entry "T2" "user" "Hello b" (Some "m2")])]))] 0)) = 2 /\
  fst (get_all_threads
    (mkFS true
       [("conversation_a.json",
         dumps (JObj [("thread_id", JStr "t");
                      ("messages", JArr [mk_entry "T1" "user" "Hello a" (Some "m1")])]));
        ("conversation_b.json",
         dumps (JObj [("thread_id", JStr "t");
                      ("messages", JArr [mk_entry "T2" "user" "Hello b" (Some "m2")])]))] 0)) =
  Ok [(JStr "t", JStr "Hello a")].
Proof. split; vm_compute; reflexivity. Qed.

(** C6, amended: when every [conversation_*.json] file holds a journal of
    the spec's format, [get_all_threads] visits the files in reverse name
    order, skips the journals with a null or empty thread id or no
    messages, and records for each other one its thread id with the text
    of its first [user] entry (or [Chat]), a later journal with the same
    thread id replacing the label of an earlier one; when the thread ids
    of the listed journals are distinct, it returns exactly one entry per
    listed journal, in scan order.  It changes no file. *)
Theorem C6_listing (fs : FS) :
  forallb (fun name => match load_value fs name with Ok v => journal_ok v | Err _ => false end)
          (journal_names fs) = true ->
  get_all_threads fs = (Ok (threads_of (listed_of fs)), mkFS true (files fs) (free fs)) /\
  (NoDup (map fst (listed_of fs)) ->
   threads_of (listed_of fs) = map (fun tl => (JStr (fst tl), snd tl)) (listed_of fs)).
Proof.
  intros Hall. split.
  - apply get_all_threads_ok. intros name v Hin Hv.
    rewrite forallb_forall in Hall. specialize (Hall name Hin). now rewrite Hv in Hall.
  - intros Hn. unfold threads_of. rewrite fold_scan_distinct; [reflexivity | exact Hn |].
    apply Forall_forall. intros; reflexivity.
Qed.

Lemma C6_witness :
  get_all_threads
    (mkFS true
       [("conversation_a.json",
         dumps (JObj [("thread_id", JStr "a");
                      ("messages", JArr [mk_entry "T0" "assistant" "Welcome" None;
                                         mk_entry "T1" "user" "Hello a" (Some "m1")])]));
        ("conversation_b.json",
         dumps (JObj [("thread_id", JStr "b"); ("messages", JArr [])]));
        ("conversation_c.json",
         dumps (JObj [("thread_id", JNull);
                      ("messages", JArr [mk_entry "T2" "user" "Hello c" (Some "m2")])]))] 0) =
  (Ok (threads_of (listed_of
    (mkFS true
       [("conversation_a.json",
         dumps (JObj [("thread_id", JStr "a");
                      ("messages", JArr [mk_entry "T0" "assistant" "Welcome" None;
                                         mk_entry "T1" "user" "Hello a" (Some "m1")])]));
        ("conversation_b.json",
         dumps (JObj [("thread_id", JStr "b"); ("messages", JArr [])]));
        ("conversation_c.json",
         dumps (JObj [("thread_id", JNull);
                      ("messages", JArr [mk_entry "T2" "user" "Hello c" (Some "m2")])]))] 0))),
   mkFS true
       [("conversation_a.json",
         dumps (JObj [("thread_id", JStr "a");
                      ("messages", JArr [mk_entry "T0" "assistant" "Welcome" None;
                                         mk_entry "T1" "user" "Hello a" (Some "m1")])]));
        ("conversation_b.json",
         dumps (JObj [("thread_id", JStr "b"); ("messages", JArr [])]));
        ("conversation_c.json",
         dumps (JObj [("thread_id", JNull);
                      ("messages", JArr [mk_entry "T2" "user" "Hello c" (Some "m2")])]))] 0) /\
  threads_of (listed_of
    (mkFS true
       [("conversation_a.json",
         dumps (JObj [("thread_id", JStr "a");
                      ("messages", JArr [mk_entry "T0" "assistant" "Welcome" None;
                                         mk_entry "T1" "user" "Hello a" (Some "m1")])]));
        ("conversation_b.json",
         dumps (JObj [("thread_id", JStr "b"); ("messages", JArr [])]));
        ("conversation_c.json",
         dumps (JObj [("thread_id", JNull);
                      ("messages", JArr [mk_entry "T2" "user" "Hello c" (Some "m2")])]))] 0)) =
  [(JStr "a", JStr "Hello a")].
Proof.
  split.
  - apply (proj1 (C6_listing
      (mkFS true
         [("conversation_a.json",
           dumps (JObj [("thread_id", JStr "a");
                        ("messages", JArr [mk_entry "T0" "assistant" "Welcome" None;
                                           mk_entry "T1" "user" "Hello a" (Some "m1")])]));
          ("conversation_b.json",
           dumps (JObj [("thread_id", JStr "b"); ("messages", JArr [])]));
          ("conversation_c.json",
           dumps (JObj [("thread_id", JNull);
                        ("messages", JArr [mk_entry "T2" "user" "Hello c" (Some "m2")])]))] 0)
      ltac:(vm_compute; reflexivity))).
  - vm_compute. reflexivity.
Defined.

(** ** C7 *)

(** C7: [delete_thread] never raises and adds no error message; a load
    of the deleted thread's journal afterwards returns the fresh empty
    journal; on an absent journal it changes no file, and a second
    delete of the same thread changes no file either. *)
Theorem C7_delete_then_load (s : Session) (tid : string) (fs : FS) :
  (exists s', fst (delete_thread s tid fs) = Ok s' /\ s_errors s' = s_errors s) /\
  load_value (snd (delete_thread s tid fs)) (thread_path tid) = Ok empty_journal /\
  (file_get (thread_path tid) (files fs) = None ->
   files (snd (delete_thread s tid fs)) = files fs) /\
  (forall s', files (snd (delete_thread s' tid (snd (delete_thread s tid fs)))) =
              files (snd (delete_thread s tid fs))).
Proof.
  rewrite delete_thread_spec.
  destruct (file_get (thread_path tid) (files fs)) as [c|] eqn:E; cbn [fst snd files];
  (split; [eexists; split; [reflexivity | destruct (opt_eqb _ _); reflexivity]|]);
  rewrite load_value_spec; cbn [files].
  - rewrite file_get_remove. split; [reflexivity|]. split; [discriminate|].
    intros s'. rewrite delete_thread_spec. cbn [files]. rewrite file_get_remove. reflexivity.
  - rewrite E. split; [reflexivity|]. split; [reflexivity|].
    intros s'. rewrite delete_thread_spec. cbn [files]. rewrite E. reflexivity.
Qed.

Lemma C7_witness :
  files (snd (delete_thread (mkSession None [] placeholder [] []) "t"
                (mkFS true [("conversation_u.json", "{}")] 10))) =
  files (mkFS true [("conversation_u.json", "{}")] 10).
Proof.
  apply (proj1 (proj2 (proj2 (C7_delete_then_load (mkSession None [] placeholder [] []) "t"
           (mkFS true [("conversation_u.json", "{}")] 10))))).
  vm_compute. reflexivity.
Defined.

(** ** C8 *)

(** C8, counterexample: the Streamlit append on a journal of 20 entries
    adds the new entry at the end and drops the oldest one. *)
Lemma C8_counterexample :
  load_value (snd (_append_memory_st "conversation_t.json" "T1" "user" "new" (Some "m1")
    (mkFS true [("conversation_t.json",
       dumps (JObj [("thread_id", JStr "t");
                    ("messages", JArr (mk_entry "T0" "user" "first" (Some "m0") ::
                                       repeat (mk_entry "T" "user" "x" None) 19))]))] 5000)))
    "conversation_t.json" =
  Ok (JObj [("thread_id", JStr "t");
            ("messages", JArr (repeat (mk_entry "T" "user" "x" None) 19 ++
                               [mk_entry "T1" "user" "new" (Some "m1")])%list)]).
Proof. vm_compute. reflexivity. Qed.

(** C8, amended: on a readable journal, a successful append of the
    terminal clients adds exactly one entry at the end and keeps the others
    as they were; a successful Streamlit append does the same and then keeps
    only the last 20 entries, which drops the oldest ones once the journal
    would exceed 20 entries; below that bound it is an append as well.
    [delete_thread] leaves every other journal file as it was. *)
Theorem C8_store_ops (p ts role text : string) (mid : option string) (fs : FS)
    (kvs : list (string * json)) (m : list json) :
  load_value fs p = Ok (JObj kvs) -> sget "messages" kvs = Some (JArr m) ->
  (forall fs', _append_memory p ts role text mid fs = (Ok tt, fs') ->
     load_value fs' p =
     Ok (JObj (sset "messages" (JArr (m ++ [mk_entry ts role text mid])%list) kvs))) /\
  (forall fs', _append_memory_st p ts role text mid fs = (Ok tt, fs') ->
     load_value fs' p =
     Ok (JObj (sset "messages" (JArr (lastn 20 (m ++ [mk_entry ts role text mid])%list)) kvs))) /\
  (length m < 20 -> lastn 20 (m ++ [mk_entry ts role text mid])%list = (m ++ [mk_entry ts role text mid])%list) /\
  (forall s t q, q <> thread_path t ->
     file_get q (files (snd (delete_thread s t fs))) = file_get q (files fs)).
Proof.
  intros Hl Hm. pose proof (load_wf _ _ _ Hl) as Hw.
  pose proof (wf_snoc _ ts role text mid (wf_msgs _ _ Hw Hm)) as Hf.
  split; [|split; [|split]].
  - intros fs' H. rewrite (append_cli_unfold _ _ _ _ _ _ kvs m Hl Hm) in H.
    exact (dump_to_load _ _ _ _ (wf_appended kvs m _ Hw Hm Hf) H).
  - intros fs' H. rewrite (append_st_unfold _ _ _ _ _ _ kvs m Hl Hm) in H.
    exact (dump_to_load _ _ _ _ (wf_appended kvs m _ Hw Hm (Forall_lastn _ _ _ Hf)) H).
  - intros Hlt. apply lastn_all. rewrite length_app. simpl. lia.
  - intros s t q Hq. rewrite delete_thread_spec.
    destruct (file_get (thread_path t) (files fs)); cbn [snd files];
      [apply file_get_remove_other; exact Hq | reflexivity].
Qed.

Lemma C8_witness :
  load_value (snd (_append_memory "conversation_t.json" "T2" "assistant" "Hi there" (Some "m2")
    (mkFS true [("conversation_t.json",
       dumps (JObj [("thread_id", JStr "t");
                    ("messages", JArr [mk_entry "T1" "user" "Hello" (Some "m1")])]))] 3000)))
    "conversation_t.json" =
  Ok (JObj (sset "messages"
    (JArr ([mk_entry "T1" "user" "Hello" (Some "m1")] ++
           [mk_entry "T2" "assistant" "Hi there" (Some "m2")])%list)
    [("thread_id", JStr "t"); ("messages", JArr [mk_entry "T1" "user" "Hello" (Some "m1")])])).
Proof.
  apply (proj1 (C8_store_ops "conversation_t.json" "T2" "assistant" "Hi there" (Some "m2")
    (mkFS true [("conversation_t.json",
       dumps (JObj [("thread_id", JStr "t");
                    ("messages", JArr [mk_entry "T1" "user" "Hello" (Some "m1")])]))] 3000)
    [("thread_id", JStr "t"); ("messages", JArr [mk_entry "T1" "user" "Hello" (Some "m1")])]
    [mk_entry "T1" "user" "Hello" (Some "m1")]
    ltac:(vm_compute; reflexivity) ltac:(vm_compute; reflexivity))).
  vm_compute. reflexivity.
Defined.

(** ** C9 *)




(** ** C10 *)

(** C10: any sequence of [_load_memory] and [get_all_threads] calls
    leaves the files of the disk, names and contents, and its free space
    exactly as they were. *)
Theorem C10_reads_keep_files (cs : list read_call) (fs : FS) :
  files (snd (run_reads cs fs)) = files fs /\ free (snd (run_reads cs fs)) = free fs.
Proof. apply run_reads_state. Qed.

(* ================================================================== *)
(** * Further properties of the code *)

(* ------------------------------------------------------------------ *)
(** ** Turns and appends *)

Lemma st_turn_journal (s : Session) (env : turn_env) (prompt : string) (fs fs' : FS)
    (s' : Session) (t : string) (kvs : list (string * json)) (m : list json) :
  t = match s_thread_id s with Some x => x | None => e_new_thread env end ->
  load_value fs (thread_path t) = Ok (JObj kvs) -> sget "messages" kvs = Some (JArr m) ->
  st_turn s env prompt fs = (Ok s', fs') ->
  load_value fs' (thread_path t) =
    Ok (JObj (sset "messages"
      (JArr (lastn 20 (m ++ mk_entry (e_ts_user env) "user" prompt (Some (e_user_msg_id env)) ::
               (if String.eqb (e_run_status env) "failed" then []
                else [mk_entry (e_ts_assistant env) "assistant" (latest_assistant (e_msgs env))
                               (latest_assistant_id (e_msgs env))]))%list)) kvs)) /\
  s_thread_id s' = Some t /\
  s_messages s' = (s_messages s ++ ("user", prompt) ::
                     (if String.eqb (e_run_status env) "failed" then []
                      else [("assistant", latest_assistant (e_msgs env))]))%list /\
  s_errors s' = (s_errors s ++
                   (if String.eqb (e_run_status env) "failed" then [("Run failed: " ++ e_run_error env)%string]
                    else []))%list.
Proof.
  intros Ht Hl Hm H. unfold st_turn in H. cbv zeta in H.
  cbn [s_thread_id s_messages s_selected s_log s_errors] in H.
  unfold bind at 1, _memory_path_for_thread, bind, mkdir_memory, ret in H.
  assert (Hl1 : load_value (mkFS true (files fs) (free fs)) (thread_path t) = Ok (JObj kvs))
    by (rewrite (load_value_files (thread_path t) fs) by reflexivity; exact Hl).
  pose proof (load_wf _ _ _ Hl) as Hw.
  destruct (s_thread_id s) as [x|] eqn:Es; subst t;
  cbn [s_thread_id s_messages s_selected s_log s_errors] in H;
  [change ("conversation_" ++ x ++ ".json") with (thread_path x) in H
  |change ("conversation_" ++ e_new_thread env ++ ".json") with (thread_path (e_new_thread env)) in H];
  rewrite (append_st_unfold _ _ _ _ _ _ kvs m Hl1 Hm) in H;
  match type of H with
  | context [dump_to ?p ?v ?f] => destruct (dump_to p v f) as [[[]|e] fs1] eqn:Ed; [|discriminate]
  end;
  (assert (Hf : Forall wf (lastn 20 (m ++ [mk_entry (e_ts_user env) "user" prompt (Some (e_user_msg_id env))])%list))
     by (apply Forall_lastn, wf_snoc, (wf_msgs _ _ Hw Hm)));
  pose proof (dump_to_load _ _ _ _ (wf_appended kvs m _ Hw Hm Hf) Ed) as Hl2;
  cbv beta iota in H;
  (destruct (String.eqb (e_run_status env) "failed") eqn:Ef;
  [ inversion H; subst; rewrite ?Es; cbn [s_thread_id s_messages s_errors];
    (split; [exact Hl2|]); (split; [reflexivity|]); rewrite <- ?app_assoc; split; reflexivity
  | unfold bind in H;
    rewrite (append_st_unfold _ _ _ _ _ _ _ _ Hl2 (sget_sset_same _ _ _)) in H;
    match type of H with
    | context [dump_to ?p ?v ?f] => destruct (dump_to p v f) as [[[]|e] fs2] eqn:Ed2; [|discriminate]
    end;
    unfold ret in H; inversion H; subst; rewrite ?Es; cbn [s_thread_id s_messages s_errors];
    (split; [rewrite (dump_to_load _ _ _ _
                (wf_appended _ _ _ (load_wf _ _ _ Hl2) (sget_sset_same _ _ _)
                   (Forall_lastn _ _ _ (wf_snoc _ _ _ _ _ Hf))) Ed2);
             rewrite sset_sset_same, lastn_app_lastn, <- app_assoc; reflexivity|]);
    (split; [reflexivity|]); split; [rewrite <- app_assoc; reflexivity | rewrite app_nil_r; reflexivity] ]).
Qed.

Lemma append_missing_unfold (p ts role text : string) (mid : option string) (fs : FS)
    (kvs : list (string * json)) :
  load_value fs p = Ok (JObj kvs) -> sget "messages" kvs = None ->
  _append_memory p ts role text mid fs =
    dump_to p (JObj (kvs ++ [("messages", JArr [mk_entry ts role text mid])])%list) fs /\
  _append_memory_st p ts role text mid fs =
    dump_to p (JObj (kvs ++ [("messages", JArr [mk_entry ts role text mid])])%list) fs.
Proof.
  intros Hl Hm. unfold _append_memory, _append_memory_st, bind.
  rewrite (load_state _ _ _ Hl). cbv beta iota.
  unfold setdefault_messages. rewrite Hm. cbn [lift ret].
  unfold append_message, py_getitem. rewrite sget_sset_same. cbn [lift ret py_setitem app].
  unfold trim_messages, py_getitem. rewrite sget_sset_same. cbn [lift ret py_setitem].
  rewrite !sset_sset_same.
  assert (Hs : sset "messages" (JArr [mk_entry ts role text mid]) kvs =
               (kvs ++ [("messages", JArr [mk_entry ts role text mid])])%list)
    by (apply dict_set_absent; exact Hm).
  change (lastn 20 [mk_entry ts role text mid]) with [mk_entry ts role text mid].
  rewrite Hs. split; reflexivity.
Qed.

Lemma stamp_not_object (t : string) (fs : FS) (v : json) :
  load_value fs (thread_path t) = Ok v -> (forall kvs, v <> JObj kvs) ->
  set_thread_id t fs = (Err TypeError, mkFS true (files fs) (free fs)).
Proof.
  intros Hl Hv.
  assert (Hl' : load_value (mkFS true (files fs) (free fs)) (thread_path t) = Ok v)
    by (rewrite (load_value_files (thread_path t) fs) by reflexivity; exact Hl).
  unfold set_thread_id, _memory_path_for_thread, bind, mkdir_memory, ret. cbv beta iota.
  change ("conversation_" ++ t ++ ".json") with (thread_path t).
  rewrite (load_state _ _ _ Hl'). cbv beta iota.
  destruct v as [| | | | |kvs]; try reflexivity. exfalso; exact (Hv kvs eq_refl).
Qed.

(* ------------------------------------------------------------------ *)
(** ** Listings, selection, deletion and the saved-thread menu *)
Lemma scan_threads_app (fs : FS) (pre rest : list string) :
  forall threads,
  (forall name v, In name pre -> load_value fs name = Ok v -> journal_ok v = true) ->
  scan_threads (pre ++ rest) threads fs =
  scan_threads rest
    (fold_left scan_step
       (flat_map (fun name => match load_value fs name with Ok v => listed v | Err _ => [] end) pre)
       threads) fs.
Proof.
  induction pre as [|name pre IH]; intros threads Hj; [reflexivity|].
  destruct (load_never_fails name fs) as [v Ev].
  assert (Hv : journal_ok v = true) by (apply (Hj name); [left; reflexivity | exact Ev]).
  assert (Hr : forall name' v', In name' pre -> load_value fs name' = Ok v' -> journal_ok v' = true)
    by (intros; apply (Hj name'); [right|]; assumption).
  cbn [scan_threads flat_map app]. rewrite Ev, fold_left_app.
  unfold bind. rewrite (load_state _ _ _ Ev).
  destruct v as [| | | | |kvs]; try discriminate.
  unfold journal_ok in Hv. apply andb_prop in Hv as [Ht Hm].
  unfold lift, py_get, ret. cbv beta iota.
  destruct (sget "thread_id" kvs) as [[| | | t | |]|] eqn:Et; try discriminate;
  destruct (sget "messages" kvs) as [[| | | | l |]|] eqn:Em; try discriminate;
  simpl listed; rewrite ?Et, ?Em; cbn [truthy negb];
  try (rewrite (IH _ Hr); reflexivity).
  destruct l as [|m ms]; destruct (String.eqb t EmptyString) eqn:E0; cbn [negb];
  try (rewrite (IH _ Hr); reflexivity).
  unfold py_iter. cbv beta iota.
  rewrite (first_user_text_ok _ Hm). unfold hash_set. cbv beta iota.
  rewrite (IH _ Hr). reflexivity.
Qed.

Lemma scan_threads_not_object (fs : FS) (bad : string) (rest : list string)
    (threads : list (json * json)) (v : json) :
  load_value fs bad = Ok v -> (forall kvs, v <> JObj kvs) ->
  scan_threads (bad :: rest) threads fs = (Err AttributeError, fs).
Proof.
  intros Hl Hv. cbn [scan_threads]. unfold bind. rewrite (load_state _ _ _ Hl).
  destruct v as [| | | | |kvs]; try reflexivity. exfalso; exact (Hv kvs eq_refl).
Qed.

(** The Streamlit listing stops at the first journal file, in its
    reverse-sorted scan order, that parses to a JSON value other than an
    object (a list, a string, a number, [null]): [mem_data.get] raises
    [AttributeError] and [get_all_threads] returns no threads at all,
    whatever the journals after it hold. *)
Theorem listing_crash (fs : FS) (pre post : list string) (bad : string) (v : json) :
  journal_names fs = (pre ++ bad :: post)%list ->
  (forall name w, In name pre -> load_value fs name = Ok w -> journal_ok w = true) ->
  load_value fs bad = Ok v -> (forall kvs, v <> JObj kvs) ->
  get_all_threads fs = (Err AttributeError, mkFS true (files fs) (free fs)).
Proof.
  intros Hn Hj Hl Hv. unfold get_all_threads, bind, mkdir_memory. cbv beta iota.
  set (fs1 := mkFS true (files fs) (free fs)).
  assert (Hf : files fs1 = files fs) by reflexivity.
  change (journal_names fs1) with (journal_names fs). rewrite Hn.
  rewrite scan_threads_app.
  - apply (scan_threads_not_object _ _ _ _ v); [|exact Hv].
    rewrite (load_value_files bad fs fs1 Hf). exact Hl.
  - intros name w Hin Hw. apply (Hj name w Hin).
    rewrite <- (load_value_files name fs fs1 Hf). exact Hw.
Qed.

Lemma listing_crash_witness :
  get_all_threads
    (mkFS true
           [("conversation_a.json", "[]");
            ("conversation_b.json", dumps (JObj [("thread_id", JStr "b"); ("messages", JArr [])]))] 100) =
  (Err AttributeError,
   mkFS true
     [("conversation_a.json", "[]");
      ("conversation_b.json", dumps (JObj [("thread_id", JStr "b"); ("messages", JArr [])]))] 100).
Proof.
  apply (listing_crash
           (mkFS true
                  [("conversation_a.json", "[]");
                   ("conversation_b.json", dumps (JObj [("thread_id", JStr "b"); ("messages", JArr [])]))] 100)
           ["conversation_b.json"] [] "conversation_a.json" (JArr [])).
  - vm_compute; reflexivity.
  - intros name w Hin Hw. destruct Hin as [<-|[]]. vm_compute in Hw. inversion Hw. reflexivity.
  - vm_compute; reflexivity.
  - intros kvs; discriminate.
Defined.

(** A value [_load_memory] reads from a journal file and that
    [json.dump(..., ensure_ascii=False, indent=2)] then writes into a
    [utf-8] file reads back as the same value when the write succeeds; when
    a chunk of the text holds a lone surrogate (a string read from an
    escape such as [\ud800]), the write does not succeed. *)
Theorem json_reload_roundtrip (p q : string) (v : json) (fs fs2 : FS) :
  load_value fs p = Ok v ->
  (forall fs', dump_to q v fs2 = (Ok tt, fs') -> load_value fs' q = Ok v) /\
  (forallb utf8_valid (iterchunks 0 v) = false -> fst (dump_to q v fs2) <> Ok tt).
Proof.
  intros Hl. split.
  - intros fs' H. exact (dump_to_load _ _ _ _ (load_wf _ _ _ Hl) H).
  - intros Hb Hok. destruct (dump_to q v fs2) as [r fs'] eqn:E. simpl in Hok. subst r.
    rewrite (dump_to_valid _ _ _ _ E) in Hb. discriminate Hb.
Qed.

Lemma json_reload_roundtrip_witness :
  load_value (snd (dump_to "conversation_u.json" (JArr [JNum "1"; JArr [JBool true; JNull]; JNum "-2.5e3"; JObj []]) (mkFS true [] 100))) "conversation_u.json" =
    Ok (JArr [JNum "1"; JArr [JBool true; JNull]; JNum "-2.5e3"; JObj []]) /\
  fst (dump_to "conversation_u.json" (JObj [("thread_id", JNull); ("messages", JArr [mk_entry "T1" "user" (utf8_encode 55296) (Some "m1")])]) (mkFS true [] 100)) <> Ok tt.
Proof.
  split.
  - apply (proj1 (json_reload_roundtrip "conversation_t.json" "conversation_u.json" (JArr [JNum "1"; JArr [JBool true; JNull]; JNum "-2.5e3"; JObj []])
             (mkFS true [("conversation_t.json", " [1, [true ,null], -2.5e3, {}]")] 100)
             (mkFS true [] 100) ltac:(vm_compute; reflexivity))).
    vm_compute. reflexivity.
  - apply (proj2 (json_reload_roundtrip "conversation_t.json" "conversation_u.json" (JObj [("thread_id", JNull); ("messages", JArr [mk_entry "T1" "user" (utf8_encode 55296) (Some "m1")])])
             (mkFS true [("conversation_t.json", escaped_surrogate_journal JNull)] 100)
             (mkFS true [] 100) ltac:(vm_compute; reflexivity))).
    vm_compute. reflexivity.
Defined.

(** A journal object without a [messages] key gets one from
    [setdefault]: a successful append of either client adds the key at
    the end of the object, holding a list of the one new entry, and keeps
    every other key. *)
Theorem append_without_messages_key (p ts role text : string) (mid : option string)
    (fs fs1 fs2 : FS) (kvs : list (string * json)) :
  load_value fs p = Ok (JObj kvs) -> sget "messages" kvs = None ->
  _append_memory p ts role text mid fs = (Ok tt, fs1) ->
  _append_memory_st p ts role text mid fs = (Ok tt, fs2) ->
  load_value fs1 p = Ok (JObj (kvs ++ [("messages", JArr [mk_entry ts role text mid])])%list) /\
  load_value fs2 p = Ok (JObj (kvs ++ [("messages", JArr [mk_entry ts role text mid])])%list).
Proof.
  intros Hl Hm H1 H2.
  destruct (append_missing_unfold p ts role text mid fs kvs Hl Hm) as [E1 E2].
  assert (Hw : wf (JObj (kvs ++ [("messages", JArr [mk_entry ts role text mid])])%list)).
  { rewrite <- (dict_set_absent _ "messages" (JArr [mk_entry ts role text mid]) kvs Hm).
    apply sset_wf; [exact (load_wf _ _ _ Hl) | apply wf_arr; constructor; [apply wf_mk_entry | constructor]]. }
  rewrite E1 in H1. rewrite E2 in H2.
  split; [exact (dump_to_load _ _ _ _ Hw H1) | exact (dump_to_load _ _ _ _ Hw H2)].
Qed.

Lemma append_without_messages_key_witness :
  load_value (snd (_append_memory "j.json" "T" "user" "hi" None (mkFS true [("j.json", "{}")] 1000)))
             "j.json" =
    Ok (JObj [("messages", JArr [mk_entry "T" "user" "hi" None])]) /\
  load_value (snd (_append_memory_st "j.json" "T" "user" "hi" None (mkFS true [("j.json", "{}")] 1000)))
             "j.json" =
    Ok (JObj [("messages", JArr [mk_entry "T" "user" "hi" None])]).
Proof.
  apply (append_without_messages_key "j.json" "T" "user" "hi" None (mkFS true [("j.json", "{}")] 1000)
           _ _ []);
    vm_compute; reflexivity.
Defined.

(** When a readable journal is not an object, or its [messages] is not a
    list, both versions of [_append_memory] raise [AttributeError] before
    opening the file, and the disk is left as it was. *)
Theorem append_rejects_bad_journal (p ts role text : string) (mid : option string) (fs : FS) (v : json) :
  load_value fs p = Ok v -> journal_messages v = None ->
  _append_memory p ts role text mid fs = (Err AttributeError, fs) /\
  _append_memory_st p ts role text mid fs = (Err AttributeError, fs).
Proof.
  intros Hl Hb. unfold _append_memory, _append_memory_st, bind.
  rewrite (load_state _ _ _ Hl).
  destruct v as [| | | | |kvs]; try (split; reflexivity).
  unfold journal_messages in Hb. unfold setdefault_messages.
  destruct (sget "messages" kvs) as [[| | | | |]|] eqn:E; try discriminate;
  cbn [lift ret]; unfold append_message, py_getitem; rewrite E; split; reflexivity.
Qed.

Lemma append_rejects_bad_journal_witness :
  _append_memory "j.json" "T" "user" "hi" None (mkFS true [("j.json", "[1]")] 1000) =
    (Err AttributeError, mkFS true [("j.json", "[1]")] 1000) /\
  _append_memory_st "j.json" "T" "user" "hi" None (mkFS true [("j.json", "[1]")] 1000) =
    (Err AttributeError, mkFS true [("j.json", "[1]")] 1000).
Proof.
  apply (append_rejects_bad_journal _ _ _ _ _ _ (JArr [JNum "1"])); vm_compute; reflexivity.
Defined.

(** Stamping the thread id into a journal that parses to a value other
    than an object raises [TypeError] ([mem_data["thread_id"] = ...]) and
    changes no file. *)
Theorem stamp_rejects_non_object (t : string) (fs : FS) (v : json) :
  load_value fs (thread_path t) = Ok v -> (forall kvs, v <> JObj kvs) ->
  fst (set_thread_id t fs) = Err TypeError /\ files (snd (set_thread_id t fs)) = files fs /\
  free (snd (set_thread_id t fs)) = free fs.
Proof.
  intros Hl Hv. rewrite (stamp_not_object t fs v Hl Hv). split; [|split]; reflexivity.
Qed.

Lemma stamp_rejects_non_object_witness :
  fst (set_thread_id "a" (mkFS true [("conversation_a.json", "7")] 1000)) = Err TypeError /\
  files (snd (set_thread_id "a" (mkFS true [("conversation_a.json", "7")] 1000))) =
    [("conversation_a.json", "7")] /\
  free (snd (set_thread_id "a" (mkFS true [("conversation_a.json", "7")] 1000))) = 1000.
Proof.
  apply (stamp_rejects_non_object "a" (mkFS true [("conversation_a.json", "7")] 1000) (JNum "7"));
    [vm_compute; reflexivity | intros kvs; discriminate].
Defined.

(** An append to a journal that is absent or does not parse starts from
    [{"thread_id": None, "messages": []}]: when it succeeds, the file holds
    that object with the one new entry, and the unreadable text is gone. *)
Theorem append_replaces_unreadable (p ts role text : string) (mid : option string) (fs fs1 fs2 : FS) :
  (file_get p (files fs) = None \/ exists c, file_get p (files fs) = Some c /\ loads c = None) ->
  _append_memory p ts role text mid fs = (Ok tt, fs1) ->
  _append_memory_st p ts role text mid fs = (Ok tt, fs2) ->
  load_value fs1 p = Ok (JObj [("thread_id", JNull); ("messages", JArr [mk_entry ts role text mid])]) /\
  load_value fs2 p = Ok (JObj [("thread_id", JNull); ("messages", JArr [mk_entry ts role text mid])]).
Proof.
  intros Hc H1 H2.
  assert (Hl : load_value fs p = Ok empty_journal).
  { rewrite load_value_spec. destruct Hc as [Hn | [c [Hs Hd]]]; [rewrite Hn | rewrite Hs, Hd; destruct (utf8_valid c)]; reflexivity. }
  assert (Hm : sget "messages" [("thread_id", JNull); ("messages", JArr [])] = Some (JArr [])) by reflexivity.
  rewrite (append_cli_unfold _ _ _ _ _ _ _ _ Hl Hm) in H1.
  rewrite (append_st_unfold _ _ _ _ _ _ _ _ Hl Hm) in H2.
  assert (Hw : Forall wf ([] ++ [mk_entry ts role text mid])%list)
    by (constructor; [apply wf_mk_entry | constructor]).
  split.
  - exact (dump_to_load _ _ _ _ (wf_appended _ _ _ wf_empty_journal Hm Hw) H1).
  - exact (dump_to_load _ _ _ _ (wf_appended _ _ _ wf_empty_journal Hm (Forall_lastn _ _ _ Hw)) H2).
Qed.

Lemma append_replaces_unreadable_witness :
  load_value (snd (_append_memory "j.json" "T" "user" "hi" (Some "m1")
                     (mkFS true [("j.json", "{broken")] 1000))) "j.json" =
    Ok (JObj [("thread_id", JNull); ("messages", JArr [mk_entry "T" "user" "hi" (Some "m1")])]) /\
  load_value (snd (_append_memory_st "j.json" "T" "user" "hi" (Some "m1")
                     (mkFS true [("j.json", "{broken")] 1000))) "j.json" =
    Ok (JObj [("thread_id", JNull); ("messages", JArr [mk_entry "T" "user" "hi" (Some "m1")])]).
Proof.
  apply (append_replaces_unreadable "j.json" "T" "user" "hi" (Some "m1")
           (mkFS true [("j.json", "{broken")] 1000)).
  - right. exists "{broken". split; vm_compute; reflexivity.
  - vm_compute; reflexivity.
  - vm_compute; reflexivity.
Defined.

(** A Streamlit turn whose run fails saves only the user entry, trimmed
    to the last 20: the journal gets no assistant entry, the session shows
    the prompt without a reply, keeps its thread id, and renders
    [Run failed: <error>]. *)
Theorem st_failed_turn_keeps_user_only (s : Session) (env : turn_env) (prompt : string)
    (fs fs' : FS) (s' : Session) (t : string) (kvs : list (string * json)) (m : list json) :
  t = match s_thread_id s with Some x => x | None => e_new_thread env end ->
  load_value fs (thread_path t) = Ok (JObj kvs) -> sget "messages" kvs = Some (JArr m) ->
  e_run_status env = "failed" ->
  st_turn s env prompt fs = (Ok s', fs') ->
  load_value fs' (thread_path t) =
    Ok (JObj (sset "messages"
      (JArr (lastn 20 (m ++ [mk_entry (e_ts_user env) "user" prompt (Some (e_user_msg_id env))])%list))
      kvs)) /\
  s_thread_id s' = Some t /\
  s_messages s' = (s_messages s ++ [("user", prompt)])%list /\
  s_errors s' = (s_errors s ++ [("Run failed: " ++ e_run_error env)%string])%list.
Proof.
  intros Ht Hl Hm Hf H.
  pose proof (st_turn_journal s env prompt fs fs' s' t kvs m Ht Hl Hm H) as J.
  rewrite Hf in J. exact J.
Qed.

Lemma st_failed_turn_keeps_user_only_witness :
  exists s' fs',
  st_turn (mkSession (Some "a") [] "Hi" [] [])
          (mkEnv "n" "m2" "r1" "failed" "boom" [mkRMsg "assistant" "m0" ["Old"]] "T1" "T2") "Q"
          (mkFS true [] 1000) = (Ok s', fs') /\
  load_value fs' (thread_path "a") =
    Ok (JObj (sset "messages" (JArr (lastn 20 ([] ++ [mk_entry "T1" "user" "Q" (Some "m2")])%list))
             [("thread_id", JNull); ("messages", JArr [])])) /\
  s_thread_id s' = Some "a" /\
  s_messages s' = ([] ++ [("user", "Q")])%list /\
  s_errors s' = ([] ++ [("Run failed: " ++ "boom")%string])%list.
Proof.
  eexists; eexists. split; [vm_compute; reflexivity|].
  apply (st_failed_turn_keeps_user_only (mkSession (Some "a") [] "Hi" [] [])
           (mkEnv "n" "m2" "r1" "failed" "boom" [mkRMsg "assistant" "m0" ["Old"]] "T1" "T2") "Q"
           (mkFS true [] 1000) _ _ "a" [("thread_id", JNull); ("messages", JArr [])] []);
    [reflexivity | vm_compute; reflexivity | reflexivity | reflexivity | vm_compute; reflexivity].
Defined.

(** A Streamlit turn whose run does not fail saves the user entry and an
    assistant entry, trimmed to the last 20, and shows both, even when
    the service returns no assistant text: the reply is then saved and
    shown as the empty string.  No error is rendered. *)
Theorem st_completed_turn_saves_reply (s : Session) (env : turn_env) (prompt : string)
    (fs fs' : FS) (s' : Session) (t : string) (kvs : list (string * json)) (m : list json) :
  t = match s_thread_id s with Some x => x | None => e_new_thread env end ->
  load_value fs (thread_path t) = Ok (JObj kvs) -> sget "messages" kvs = Some (JArr m) ->
  e_run_status env <> "failed" ->
  st_turn s env prompt fs = (Ok s', fs') ->
  load_value fs' (thread_path t) =
    Ok (JObj (sset "messages"
      (JArr (lastn 20 (m ++ [mk_entry (e_ts_user env) "user" prompt (Some (e_user_msg_id env));
                             mk_entry (e_ts_assistant env) "assistant" (latest_assistant (e_msgs env))
                                      (latest_assistant_id (e_msgs env))])%list))
      kvs)) /\
  s_thread_id s' = Some t /\
  s_messages s' = (s_messages s ++ [("user", prompt); ("assistant", latest_assistant (e_msgs env))])%list /\
  s_errors s' = s_errors s.
Proof.
  intros Ht Hl Hm Hf H.
  pose proof (st_turn_journal s env prompt fs fs' s' t kvs m Ht Hl Hm H) as J.
  apply String.eqb_neq in Hf. rewrite Hf, app_nil_r in J. exact J.
Qed.

Lemma st_completed_turn_saves_reply_witness :
  exists s' fs',
  st_turn (mkSession None [] "Hi" [] [])
          (mkEnv "n" "m2" "r1" "completed" "" [mkRMsg "assistant" "m3" []; mkRMsg "user" "m2" ["Q"]]
             "T1" "T2") "Q"
          (mkFS true [] 1000) = (Ok s', fs') /\
  load_value fs' (thread_path "n") =
    Ok (JObj (sset "messages"
      (JArr (lastn 20 ([] ++ [mk_entry "T1" "user" "Q" (Some "m2");
                              mk_entry "T2" "assistant" "" (Some "m3")])%list))
      [("thread_id", JNull); ("messages", JArr [])])) /\
  s_thread_id s' = Some "n" /\
  s_messages s' = ([] ++ [("user", "Q"); ("assistant", "")])%list /\
  s_errors s' = [].
Proof.
  eexists; eexists. split; [vm_compute; reflexivity|].
  apply (st_completed_turn_saves_reply (mkSession None [] "Hi" [] [])
           (mkEnv "n" "m2" "r1" "completed" "" [mkRMsg "assistant" "m3" []; mkRMsg "user" "m2" ["Q"]]
              "T1" "T2") "Q"
           (mkFS true [] 1000) _ _ "n" [("thread_id", JNull); ("messages", JArr [])] []);
    [reflexivity | vm_compute; reflexivity | reflexivity | discriminate | vm_compute; reflexivity].
Defined.

Lemma listed_null_id (kvs : list (string * json)) :
  sget "thread_id" kvs = Some JNull -> listed (JObj kvs) = [].
Proof. intros H. unfold listed. rewrite H. reflexivity. Qed.

(** The Streamlit page never writes a thread id into a journal: a turn
    that creates a new thread leaves its fresh journal with
    [thread_id = null], so [get_all_threads] never lists the conversation
    it has just saved. *)
Theorem st_new_thread_never_listed (s : Session) (env : turn_env) (prompt : string)
    (fs fs' : FS) (s' : Session) :
  s_thread_id s = None ->
  file_get (thread_path (e_new_thread env)) (files fs) = None ->
  st_turn s env prompt fs = (Ok s', fs') ->
  s_thread_id s' = Some (e_new_thread env) /\
  exists kvs, load_value fs' (thread_path (e_new_thread env)) = Ok (JObj kvs) /\
    sget "thread_id" kvs = Some JNull /\ listed (JObj kvs) = [].
Proof.
  intros Hs Hf H.
  assert (Hl : load_value fs (thread_path (e_new_thread env)) = Ok empty_journal)
    by (rewrite load_value_spec, Hf; reflexivity).
  assert (Ht : e_new_thread env = match s_thread_id s with Some x => x | None => e_new_thread env end)
    by (rewrite Hs; reflexivity).
  destruct (st_turn_journal s env prompt fs fs' s' _ _ _ Ht Hl eq_refl H) as [J [J2 _]].
  split; [exact J2|].
  eexists. split; [exact J|].
  assert (Hn : sget "thread_id" (sset "messages"
     (JArr (lastn 20 ([] ++ mk_entry (e_ts_user env) "user" prompt (Some (e_user_msg_id env)) ::
        (if String.eqb (e_run_status env) "failed" then []
         else [mk_entry (e_ts_assistant env) "assistant" (latest_assistant (e_msgs env))
                 (latest_assistant_id (e_msgs env))]))%list))
     [("thread_id", JNull); ("messages", JArr [])]) = Some JNull) by reflexivity.
  split; [exact Hn | exact (listed_null_id _ Hn)].
Qed.

Lemma st_new_thread_never_listed_witness :
  exists s' fs',
  st_turn (mkSession None [] "Hi" [] [])
          (mkEnv "n" "m2" "r1" "completed" "" [mkRMsg "assistant" "m3" ["Hello"]] "T1" "T2") "Q"
          (mkFS true [] 1000) = (Ok s', fs') /\
  s_thread_id s' = Some "n" /\
  exists kvs, load_value fs' (thread_path "n") = Ok (JObj kvs) /\
    sget "thread_id" kvs = Some JNull /\ listed (JObj kvs) = [].
Proof.
  eexists; eexists. split; [vm_compute; reflexivity|].
  apply (st_new_thread_never_listed (mkSession None [] "Hi" [] [])
           (mkEnv "n" "m2" "r1" "completed" "" [mkRMsg "assistant" "m3" ["Hello"]] "T1" "T2") "Q"
           (mkFS true [] 1000));
    [reflexivity | vm_compute; reflexivity | vm_compute; reflexivity].
Defined.



Lemma thread_for_label_app (pre post : list (json * json)) (t l : json) (sel : string) :
  label_eq l sel = true ->
  thread_for_label (pre ++ (t, l) :: post) sel =
  match thread_for_label pre sel with Some x => Some x | None => Some t end.
Proof.
  intros Hl. induction pre as [|[t' l'] pre IH]; simpl; [rewrite Hl; reflexivity|].
  destruct (label_eq l' sel); [reflexivity | exact IH].
Qed.

(** When well-formed journals carry distinct thread ids, selecting a label
    in the Streamlit page ([handle_chat_selection],
    [delete_selected_chat_callback]) resolves to the first listed thread
    with that label: a later thread with the same first user text can be
    neither opened nor deleted through the menu. *)
Theorem selection_picks_first_label (fs : FS) (pre post : list (string * json)) (t sel : string) :
  (forall name v, In name (journal_names fs) -> load_value fs name = Ok v -> journal_ok v = true) ->
  NoDup (map fst (listed_of fs)) ->
  listed_of fs = (pre ++ (t, JStr sel) :: post)%list ->
  forallb (fun tl => negb (label_eq (snd tl) sel)) pre = true ->
  exists threads, fst (get_all_threads fs) = Ok threads /\
    thread_for_label threads sel = Some (JStr t).
Proof.
  intros Hj Hn Hs Hp. rewrite (get_all_threads_ok fs Hj). eexists; split; [reflexivity|].
  unfold threads_of. rewrite (fold_scan_distinct _ [] Hn) by (apply Forall_forall; reflexivity).
  rewrite Hs, map_app. cbn [map app fst snd].
  rewrite (thread_for_label_app _ _ (JStr t) (JStr sel) sel (String.eqb_refl sel)).
  assert (Hnone : thread_for_label (map (fun tl : string * json => (JStr (fst tl), snd tl)) pre) sel = None).
  { clear Hs. induction pre as [|[t' l'] pre IH]; [reflexivity|].
    simpl in Hp |- *. apply andb_prop in Hp as [H1 H2].
    destruct (label_eq l' sel); [discriminate | exact (IH H2)]. }
  rewrite Hnone. reflexivity.
Qed.

Lemma selection_picks_first_label_witness :
  exists threads,
  fst (get_all_threads
         (mkFS true
            [("conversation_a.json",
              dumps (JObj [("thread_id", JStr "a"); ("messages", JArr [mk_entry "T1" "user" "Hi" None])]));
             ("conversation_b.json",
              dumps (JObj [("thread_id", JStr "b"); ("messages", JArr [mk_entry "T2" "user" "Hi" None])]))]
            1000)) = Ok threads /\
  thread_for_label threads "Hi" = Some (JStr "b").
Proof.
  apply (selection_picks_first_label _ [] [("a", JStr "Hi")] "b" "Hi").
  - intros name v Hin Hv. vm_compute in Hin.
    destruct Hin as [<-|[<-|[]]]; vm_compute in Hv; inversion Hv; reflexivity.
  - vm_compute. repeat constructor; simpl; intuition discriminate.
  - vm_compute; reflexivity.
  - reflexivity.
Defined.



Lemma cp_length_app (a b : string) : cp_length (a ++ b) = cp_length a + cp_length b.
Proof. induction a as [|c a IH]; simpl; [reflexivity|]. rewrite IH. lia. Qed.

Lemma cp_length_prefix (n : nat) (s : string) : cp_length (cp_prefix n s) = Nat.min n (cp_length s).
Proof.
  revert n. induction s as [|c r IH]; intros n; simpl; [lia|].
  destruct (is_cont c) eqn:Ec; simpl; rewrite ?Ec; [apply IH|].
  destruct n as [|n']; simpl; rewrite ?Ec; [lia|]. rewrite IH. lia.
Qed.

Lemma cp_prefix_split (n : nat) (s : string) : exists rest, s = (cp_prefix n s ++ rest)%string.
Proof.
  revert n. induction s as [|c r IH]; intros n; simpl; [exists EmptyString; reflexivity|].
  destruct (is_cont c).
  - destruct (IH n) as [rest Hr]. exists rest. simpl. rewrite <- Hr. reflexivity.
  - destruct n as [|n'].
    + exists (String c r). reflexivity.
    + destruct (IH n') as [rest Hr]. exists rest. simpl. rewrite <- Hr. reflexivity.
Qed.

(** The menu snippet of a text has at most 60 code points: a text of at
    most 60 code points is shown whole, a longer one as its first 57 code
    points followed by [...], exactly 60 code points. *)
Theorem snippet_bounded (s : string) :
  exists s', snippet_of (JStr s) = Ok (JStr s') /\ cp_length s' <= 60 /\
    (cp_length s <= 60 -> s' = s) /\
    (60 < cp_length s ->
       cp_length s' = 60 /\ exists rest, s = (cp_prefix 57 s ++ rest)%string /\
       s' = (cp_prefix 57 s ++ "...")%string).
Proof.
  unfold snippet_of. destruct (truthy (JStr s)) eqn:Et.
  - destruct (60 <? cp_length s) eqn:E.
    + apply Nat.ltb_lt in E.
      assert (Hl : cp_length (cp_prefix 57 s ++ "...") = 60)
        by (rewrite cp_length_app, cp_length_prefix, Nat.min_l by lia; reflexivity).
      eexists; split; [reflexivity|]. split; [rewrite Hl; lia|]. split; [intros; lia|].
      intros _. split; [exact Hl|]. destruct (cp_prefix_split 57 s) as [rest Hr].
      exists rest. split; [exact Hr | reflexivity].
    + apply Nat.ltb_ge in E. eexists; split; [reflexivity|]. split; [exact E|].
      split; [reflexivity | intros; lia].
  - eexists; split; [reflexivity|]. cbn [truthy] in Et.
    apply negb_false_iff, String.eqb_eq in Et. subst s. cbn. split; [lia|]. split; [reflexivity|intros; lia].
Qed.


Lemma ltb_asym (a b : string) : String.ltb a b = true -> String.ltb b a = false.
Proof.
  unfold String.ltb. rewrite (String.compare_antisym b a).
  destruct (String.compare a b); simpl; congruence.
Qed.

Lemma key_lt_str (a b : saved_item) (x y : string) :
  sort_key a = JStr x -> sort_key b = JStr y ->
  key_lt (sort_key a) (sort_key b) = Ok (String.ltb (key_str a) (key_str b)).
Proof. intros Ha Hb. unfold key_str. rewrite Ha, Hb. reflexivity. Qed.

Lemma insert_item_ok (x : saved_item) (sx : string) (l : list saved_item) :
  sort_key x = JStr sx ->
  Forall (fun it => exists s, sort_key it = JStr s) l ->
  exists l', insert_item x l = Ok l' /\ Permutation (x :: l) l' /\
    (Sorted key_ge l -> Sorted key_ge l') /\
    (forall y, HdRel key_ge y l -> key_ge y x -> HdRel key_ge y l').
Proof.
  intros Hx. induction l as [|y ys IH]; intros Hf.
  - exists [x]. split; [reflexivity|]. split; [reflexivity|].
    split; [intros _; repeat constructor | intros y _ Hy; constructor; exact Hy].
  - inversion Hf as [|? ? [sy Hy] Hys]; subst.
    cbn [insert_item]. rewrite (key_lt_str y x sy sx Hy Hx).
    destruct (String.ltb (key_str y) (key_str x)) eqn:E.
    + exists (x :: y :: ys). split; [reflexivity|]. split; [reflexivity|]. split.
      * intros Hs. constructor; [exact Hs|]. constructor. unfold key_ge. exact (ltb_asym _ _ E).
      * intros z _ Hz. constructor. exact Hz.
    + destruct (IH Hys) as [r [Hr [Hp [Hs Hh]]]]. rewrite Hr. exists (y :: r).
      split; [reflexivity|]. split.
      * apply (perm_trans (perm_swap y x ys)). apply perm_skip. exact Hp.
      * split.
        -- intros Hs'. inversion Hs' as [|? ? Hs0 Hh0]; subst. constructor; [exact (Hs Hs0)|].
           apply Hh; [exact Hh0 | exact E].
        -- intros z Hz _. inversion Hz; subst. constructor. assumption.
Qed.

Lemma sort_items_into_ok (l acc : list saved_item) :
  Forall (fun it => exists s, sort_key it = JStr s) l ->
  Forall (fun it => exists s, sort_key it = JStr s) acc ->
  Sorted key_ge acc ->
  exists r, sort_items_into l acc = Ok r /\ Permutation (l ++ acc) r /\ Sorted key_ge r.
Proof.
  revert acc. induction l as [|x l IH]; intros acc Hl Ha Hs.
  - exists acc. split; [reflexivity|]. split; [reflexivity | exact Hs].
  - inversion Hl as [|? ? [sx Hx] Hl']; subst.
    destruct (insert_item_ok x sx acc Hx Ha) as [a' [Hi [Hp [Hs' _]]]].
    cbn [sort_items_into]. rewrite Hi.
    assert (Ha' : Forall (fun it => exists s, sort_key it = JStr s) a').
    { apply Forall_forall. intros it Hin. apply (Permutation_in _ (Permutation_sym Hp)) in Hin.
      destruct Hin as [<-|Hin]; [exists sx; exact Hx | rewrite Forall_forall in Ha; exact (Ha _ Hin)]. }
    destruct (IH a' Hl' Ha' (Hs' Hs)) as [r [Hr [Hpr Hsr]]].
    exists r. split; [exact Hr|]. split; [|exact Hsr].
    apply (perm_trans (Permutation_middle l acc x)).
    apply (perm_trans (Permutation_app_head l Hp)). exact Hpr.
Qed.

Lemma entry_fields (x : json) :
  entry_ok x = true ->
  exists ts r txt, py_getitem x "ts" = Ok (JStr ts) /\ py_getitem x "role" = Ok (JStr r) /\
                   py_getitem x "text" = Ok (JStr txt).
Proof.
  intros H. destruct x as [| | | | |kvs]; try discriminate. unfold entry_ok in H. unfold py_getitem.
  destruct (sget "ts" kvs) as [[| | | ts | |]|]; try discriminate.
  destruct (sget "text" kvs) as [[| | | txt | |]|]; try discriminate.
  destruct (sget "role" kvs) as [[| | | r | |]|];
    [| | | exists ts, r, txt; repeat split | | | ]; rewrite andb_false_r in H; discriminate.
Qed.

Lemma snippet_str_ok (s : string) : exists v, snippet_of (JStr s) = Ok v.
Proof.
  unfold snippet_of. destruct (truthy (JStr s)); [destruct (60 <? cp_length s)|]; eexists; reflexivity.
Qed.

Lemma collect_step (fs : FS) (p : string) (rest : list string) (items : list saved_item) (v : json) :
  load_value fs p = Ok v -> journal_ok v = true ->
  exists it, it_path it = p /\ (exists s, sort_key it = JStr s) /\
    collect_saved (p :: rest) items fs =
    collect_saved rest (if has_thread_id v then (items ++ [it])%list else items) fs.
Proof.
  intros Hl Hv. cbn [collect_saved]. unfold bind at 1. rewrite (load_state _ _ _ Hl).
  destruct v as [| | | | |kvs]; try discriminate.
  unfold journal_ok in Hv. apply andb_prop in Hv as [Ht Hm].
  destruct (sget "messages" kvs) as [[| | | | l |]|] eqn:Em; try discriminate.
  assert (Htid : forall X (k : json -> M X),
            bind (lift (py_get (JObj kvs) "thread_id")) k =
            k (match sget "thread_id" kvs with Some v => v | None => JNull end)) by reflexivity.
  rewrite Htid; clear Htid.
  assert (Hmsg : forall X (k : json -> M X),
            bind (lift (py_get_default (JObj kvs) "messages" (JArr []))) k = k (JArr l))
    by (intros; unfold py_get_default; rewrite Em; reflexivity).
  rewrite Hmsg; clear Hmsg.
  assert (Hid : truthy (match sget "thread_id" kvs with Some v => v | None => JNull end) =
                has_thread_id (JObj kvs)).
  { unfold has_thread_id. destruct (sget "thread_id" kvs) as [[| | | t | |]|]; try discriminate; reflexivity. }
  destruct l as [|x xs].
  - cbn [truthy]. eexists. split; [|split]; [| |unfold bind, lift, ret, snippet_of; cbn [truthy]; rewrite Hid; reflexivity];
      [reflexivity | exists ""; reflexivity].
  - destruct (rev (x :: xs)) as [|y ys] eqn:Er; [exfalso; apply (f_equal (@length json)) in Er;
      rewrite length_rev in Er; discriminate|].
    assert (Hy : In y (x :: xs)) by (apply in_rev; rewrite Er; left; reflexivity).
    cbn [forallb] in Hm. apply andb_prop in Hm as [Hx Hxs].
    assert (Hy' : entry_ok y = true)
      by (destruct Hy as [<-|Hy]; [exact Hx | rewrite forallb_forall in Hxs; exact (Hxs _ Hy)]).
    destruct (entry_fields x Hx) as [ts [_ [_ [Hts _]]]].
    destruct (entry_fields y Hy') as [ts' [r [txt [_ [Hr Htx]]]]].
    destruct (snippet_str_ok txt) as [sn Hsn].
    cbn [truthy py_item_key]. rewrite Er. unfold bind, lift, ret. rewrite Hts, Hr, Htx, Hsn.
    rewrite Hid. eexists. split; [|split; [|reflexivity]]; [reflexivity|].
    unfold sort_key. cbn [it_created]. destruct (truthy (JStr ts)); [exists ts | exists ""]; reflexivity.
Qed.

Lemma collect_saved_ok (fs : FS) (paths : list string) :
  forall items,
  (forall p v, In p paths -> load_value fs p = Ok v -> journal_ok v = true) ->
  Forall (fun it => exists s, sort_key it = JStr s) items ->
  exists items', collect_saved paths items fs = (Ok items', fs) /\
    Forall (fun it => exists s, sort_key it = JStr s) items' /\
    map it_path items' =
      (map it_path items ++
       filter (fun p => match load_value fs p with Ok v => has_thread_id v | Err _ => false end) paths)%list.
Proof.
  induction paths as [|p paths IH]; intros items Hj Hf.
  - exists items. split; [reflexivity|]. split; [exact Hf | rewrite app_nil_r; reflexivity].
  - destruct (load_never_fails p fs) as [v Ev].
    assert (Hv : journal_ok v = true) by (apply (Hj p); [left; reflexivity | exact Ev]).
    assert (Hr : forall p' v', In p' paths -> load_value fs p' = Ok v' -> journal_ok v' = true)
      by (intros; apply (Hj p'); [right|]; assumption).
    destruct (collect_step fs p paths items v Ev Hv) as [it [Hp [Hk Hc]]]. rewrite Hc.
    cbn [filter]. rewrite Ev.
    destruct (has_thread_id v).
    + assert (Hf' : Forall (fun it => exists s, sort_key it = JStr s) (items ++ [it])%list)
        by (apply Forall_app; split; [exact Hf | constructor; [exact Hk | constructor]]).
      destruct (IH _ Hr Hf') as [items' [H1 [H2 H3]]].
      exists items'. split; [exact H1|]. split; [exact H2|].
      rewrite H3, map_app, <- app_assoc. cbn [map app]. rewrite Hp. reflexivity.
    + exact (IH _ Hr Hf).
Qed.

(** When every globbed journal is well formed, [_list_saved_threads]
    succeeds, writes no file, lists exactly the journals with a non-empty
    string thread id (also those with no messages, unlike the Streamlit
    listing), and orders them by decreasing first timestamp, the ones
    without messages last. *)
Theorem list_saved_threads_sorted (fs : FS) :
  (forall p v, In p (filter glob_match (map fst (files fs))) -> load_value fs p = Ok v ->
               journal_ok v = true) ->
  exists l, _list_saved_threads fs = (Ok l, mkFS true (files fs) (free fs)) /\
    Permutation (map it_path l)
      (filter (fun p => match load_value fs p with Ok v => has_thread_id v | Err _ => false end)
              (filter glob_match (map fst (files fs)))) /\
    Sorted key_ge l.
Proof.
  intros Hj. unfold _list_saved_threads, bind at 1, mkdir_memory. cbv beta iota.
  set (fs1 := mkFS true (files fs) (free fs)).
  assert (Hf : files fs1 = files fs) by reflexivity.
  assert (Hj1 : forall p v, In p (filter glob_match (map fst (files fs1))) -> load_value fs1 p = Ok v ->
                            journal_ok v = true).
  { intros p v Hin Hv. rewrite Hf in Hin. apply (Hj p v Hin).
    rewrite <- (load_value_files p fs fs1 Hf). exact Hv. }
  destruct (collect_saved_ok fs1 _ [] Hj1 (Forall_nil _)) as [items [Hc [Hk Hp]]].
  destruct (sort_items_into_ok items [] Hk (Forall_nil _) (Sorted_nil _)) as [r [Hs [Hpr Hsr]]].
  exists r. unfold bind. rewrite Hc. unfold sort_items. rewrite Hs. split; [reflexivity|].
  split; [|exact Hsr].
  rewrite app_nil_r in Hpr. apply (Permutation_map it_path) in Hpr.
  apply (perm_trans (Permutation_sym Hpr)). rewrite Hp. cbn [map app]. rewrite Hf.
  rewrite (filter_ext (fun p => match load_value fs1 p with Ok v => has_thread_id v | Err _ => false end)
                      (fun p => match load_value fs p with Ok v => has_thread_id v | Err _ => false end))
    by (intros p; rewrite (load_value_files p fs fs1 Hf); reflexivity).
  reflexivity.
Qed.

Lemma list_saved_threads_sorted_witness :
  exists l,
  _list_saved_threads
    (mkFS true
       [("conversation_a.json",
         dumps (JObj [("thread_id", JStr "a"); ("messages", JArr [mk_entry "2024-01-01" "user" "Hi" None])]));
        ("notes.txt", "x");
        ("conversation_b.json",
         dumps (JObj [("thread_id", JStr "b"); ("messages", JArr [mk_entry "2024-03-01" "user" "Yo" None])]));
        ("conversation_c.json", dumps (JObj [("thread_id", JStr ""); ("messages", JArr [])]));
        ("conversation_d.json", dumps (JObj [("thread_id", JStr "d"); ("messages", JArr [])]))] 1000) =
    (Ok l, mkFS true
       [("conversation_a.json",
         dumps (JObj [("thread_id", JStr "a"); ("messages", JArr [mk_entry "2024-01-01" "user" "Hi" None])]));
        ("notes.txt", "x");
        ("conversation_b.json",
         dumps (JObj [("thread_id", JStr "b"); ("messages", JArr [mk_entry "2024-03-01" "user" "Yo" None])]));
        ("conversation_c.json", dumps (JObj [("thread_id", JStr ""); ("messages", JArr [])]));
        ("conversation_d.json", dumps (JObj [("thread_id", JStr "d"); ("messages", JArr [])]))] 1000) /\
  Permutation (map it_path l) ["conversation_a.json"; "conversation_b.json"; "conversation_d.json"] /\
  Sorted key_ge l.
Proof.
  apply list_saved_threads_sorted.
  intros p v Hin Hv. vm_compute in Hin.
  destruct Hin as [<-|[<-|[<-|[<-|[]]]]]; vm_compute in Hv; inversion Hv; reflexivity.
Defined.

(** [_list_saved_threads] never changes a file or the free space, whether
    it succeeds or raises. *)
Theorem list_saved_threads_read_only (fs : FS) :
  snd (_list_saved_threads fs) = mkFS true (files fs) (free fs).
Proof.
  assert (Hc : forall paths items, keeps_state (collect_saved paths items)).
  { induction paths as [|p paths IH]; intros items; cbn [collect_saved]; [apply keeps_ret|].
    apply keeps_bind; [apply keeps_load | intros data].
    repeat (apply keeps_bind; [apply keeps_lift | intros ?]). apply IH. }
  unfold _list_saved_threads, bind at 1, mkdir_memory. cbv beta iota.
  apply keeps_bind; [apply Hc | intros items; apply keeps_lift].
Qed.
